(** * tiktok_tg.py: link detection, resolution and delivery

    A shallow embedding of the Telegram relay bot of [src/tiktok_tg.py]:
    the link matcher ([URL_RE], [_is_tiktok_link],
    [_extract_tiktok_url_from_text]), the identity formatter
    ([_display_name_from_msg]), the resolver client
    ([resolve_tiktok_direct_url]), the transfer manager
    ([download_to_tempfile]) and the per-message workflow
    ([handle_message]).  The [/start] handler and the bootstrap ([main]) are
    not part of it.

    Conventions.
    - A Python [str] is a [string] holding its UTF-8 encoding; the literals
      of the embedded code are ASCII, except the notice of an unresolved
      link.
    - The values the JSON decoder produces are the inductive [pyval].
    - Code that performs I/O runs in the monad [M]: a function from the
      world (file system, open handles, log of calls) to a result, which is
      a value or a raised exception, and the world afterwards.  Whatever the
      outside decides (HTTP replies, platform failures, file-system faults,
      the name of the temporary file) is read from an [environment]; a
      timeout shows as a failure of the call it bounds.
    - Only instances of [Exception] are modelled as exceptions: these are
      what every [except Exception] of the program catches.  Task
      cancellation and interpreter exit are outside the model, and so is the
      opening and closing of the HTTP session. *)

From Stdlib Require Import ZArith NArith String Ascii List Bool Lia.
From Stdlib Require Import DecimalString DecimalPos Floats.PrimFloat.
From stdpp Require Import gmap strings.

Set Warnings "-register-all".
Local Open Scope N_scope.

(** ** Strings *)

(** Truth value of a [str]: the empty string is false. *)
Definition str_truthy (s : string) : bool :=
  match s with
  | EmptyString => false
  | String _ _ => true
  end.

(** Truth value of an attribute that is a [str] or [None]. *)
Definition opt_truthy (o : option string) : bool :=
  match o with
  | None => false
  | Some s => str_truthy s
  end.

Definition lower_char (c : ascii) : ascii :=
  let n := N_of_ascii c in
  if (65 <=? n) && (n <=? 90) then ascii_of_N (n + 32) else c.

(** [str.lower()].  ASCII capitals become small letters, and so does U+212A
    KELVIN SIGN (bytes E2 84 AA), the one character outside ASCII whose
    lowercase form is an ASCII string.  Every other character is kept: its
    lowercase form has a character outside ASCII, as the character itself
    has, so a comparison with an ASCII literal is not affected. *)
Fixpoint lower (s : string) : string :=
  match s with
  | EmptyString => EmptyString
  | String a r =>
      match r with
      | String b (String c r') =>
          if (N_of_ascii a =? 226) && (N_of_ascii b =? 132) && (N_of_ascii c =? 170)
          then String "k" (lower r')
          else String (lower_char a) (lower r)
      | _ => String (lower_char a) (lower r)
      end
  end.

(** [ch in s] for a one-character [ch]. *)
Fixpoint str_contains (ch : ascii) (s : string) : bool :=
  match s with
  | EmptyString => false
  | String c r => Ascii.eqb c ch || str_contains ch r
  end.

(** [s.split(ch)[0]]: the part of [s] before the first [ch]. *)
Fixpoint split_head (ch : ascii) (s : string) : string :=
  match s with
  | EmptyString => EmptyString
  | String c r => if Ascii.eqb c ch then EmptyString else String c (split_head ch r)
  end.

(** [sep.join(parts)]. *)
Fixpoint str_join (sep : string) (parts : list string) : string :=
  match parts with
  | [] => EmptyString
  | [p] => p
  | p :: rest => p +:+ sep +:+ str_join sep rest
  end.

(** [str(n)] for an [int]. *)
Definition str_of_int (n : Z) : string :=
  NilEmpty.string_of_int (Z.to_int n).

(** ** Link matcher *)

(** The class [\s] of a [str] pattern: does [s] start with a whitespace
    character?  These are U+0009..U+000D, U+001C..U+0020, U+0085, U+00A0,
    U+1680, U+2000..U+200A, U+2028, U+2029, U+202F, U+205F and U+3000, read
    here in their UTF-8 encodings. *)
Definition space_at (s : string) : bool :=
  match s with
  | EmptyString => false
  | String a r =>
      let x := N_of_ascii a in
      if (9 <=? x) && (x <=? 13) || (28 <=? x) && (x <=? 32) then true
      else
        match r with
        | EmptyString => false
        | String b r' =>
            let y := N_of_ascii b in
            if x =? 194 then (y =? 133) || (y =? 160)
            else
              match r' with
              | EmptyString => false
              | String c _ =>
                  let z := N_of_ascii c in
                  (x =? 225) && (y =? 154) && (z =? 128)
                  || (x =? 226) && (y =? 128)
                     && ((128 <=? z) && (z <=? 138) || (z =? 168) || (z =? 169) || (z =? 175))
                  || (x =? 226) && (y =? 129) && (z =? 159)
                  || (x =? 227) && (y =? 128) && (z =? 128)
              end
        end
  end.

(** A literal of the pattern under [re.IGNORECASE]: the characters of the
    text that matched it, and the text after them.  [pat] is in lower
    case. *)
Fixpoint lit_ci (pat s : string) : option (string * string) :=
  match pat with
  | EmptyString => Some (EmptyString, s)
  | String p pat' =>
      match s with
      | EmptyString => None
      | String c s' =>
          if Ascii.eqb (lower_char c) p then
            match lit_ci pat' s' with
            | Some (m, r) => Some (String c m, r)
            | None => None
            end
          else None
      end
  end.

(** One [s] under [re.IGNORECASE]: [s], [S], or U+017F LATIN SMALL LETTER
    LONG S (bytes C5 BF), which the engine takes for the same letter. *)
Definition lit_s (s : string) : option (string * string) :=
  match s with
  | EmptyString => None
  | String c r =>
      if Ascii.eqb (lower_char c) "s" then Some (String c EmptyString, r)
      else
        match r with
        | String d r' =>
            if (N_of_ascii c =? 197) && (N_of_ascii d =? 191)
            then Some (String c (String d EmptyString), r')
            else None
        | EmptyString => None
        end
  end.

(** [[^\s)]*], greedy: the longest run of characters that are neither
    whitespace nor a closing parenthesis, and the text after it. *)
Fixpoint url_body (s : string) : string * string :=
  match s with
  | EmptyString => (EmptyString, EmptyString)
  | String c r =>
      if space_at s || Ascii.eqb c ")" then (EmptyString, s)
      else let (m, rest) := url_body r in (String c m, rest)
  end.

(** [://[^\s)]+] after the part [pre] already matched. *)
Definition match_tail (pre s : string) : option (string * string) :=
  match lit_ci "://" s with
  | None => None
  | Some (m1, r1) =>
      match url_body r1 with
      | (EmptyString, _) => None
      | (b, rest) => Some (pre +:+ m1 +:+ b, rest)
      end
  end.

(** [URL_RE = re.compile(r"https?://[^\s)]+", re.IGNORECASE)], matched at
    the start of [s]: the matched text ([m.group(0)]) and the text after
    it.  The optional [s] is tried first and given up when the rest does
    not match. *)
Definition URL_RE_match (s : string) : option (string * string) :=
  match lit_ci "http" s with
  | None => None
  | Some (m0, r0) =>
      match lit_s r0 with
      | None => match_tail m0 r0
      | Some (ms, r1) =>
          match match_tail (m0 +:+ ms) r1 with
          | Some found => Some found
          | None => match_tail m0 r0
          end
      end
  end.

(** [URL_RE.finditer(text)]: the matches from left to right, none
    overlapping another.  [skip] counts the characters of the last match
    that are still to be passed over; the search resumes after them. *)
Fixpoint finditer_from (skip : nat) (s : string) : list string :=
  match s with
  | EmptyString => []
  | String _ s' =>
      match skip with
      | S k => finditer_from k s'
      | O =>
          match URL_RE_match s with
          | Some (m, _) => m :: finditer_from (String.length m - 1) s'
          | None => finditer_from 0 s'
          end
      end
  end.

Definition URL_RE_finditer (text : string) : list string :=
  finditer_from 0 text.

Definition _ALLOWED_TT_HOSTS : gset string :=
  {[ "tiktok.com"; "www.tiktok.com"; "m.tiktok.com"; "vm.tiktok.com"; "vt.tiktok.com" ]}.

Section LinkMatcher.

(** [urlparse(u).netloc] of the standard library, [None] when [urlparse]
    raises (it does on some malformed authorities).  The development is
    parametric in it. *)
Variable urlparse_netloc : string -> option string.

Definition _is_tiktok_link (u : string) : bool :=
  match urlparse_netloc u with
  | None => false
  | Some netloc =>
      let host := lower netloc in
      let host := if str_contains ":" host then split_head ":" host else host in
      bool_decide (host ∈ _ALLOWED_TT_HOSTS)
  end.

(** The loop [for m in URL_RE.finditer(text)] with its early return. *)
Fixpoint first_tiktok_link (matches : list string) : option string :=
  match matches with
  | [] => None
  | url :: rest => if _is_tiktok_link url then Some url else first_tiktok_link rest
  end.

Definition _extract_tiktok_url_from_text (text : option string) : option string :=
  match text with
  | None => None
  | Some t =>
      if negb (str_truthy t) then None
      else first_tiktok_link (URL_RE_finditer t)
  end.

End LinkMatcher.

(** An instance of [urlparse_netloc] for the examples: the authority of an
    absolute URL, that is the text between [scheme://] and the first of
    [/], [?] and [#]; an authority with a square bracket is refused, as
    [urlparse] refuses an unbalanced one. *)
Fixpoint after_slashes (s : string) : option string :=
  match s with
  | String a r =>
      match r with
      | String b (String c r') =>
          if Ascii.eqb a ":" && Ascii.eqb b "/" && Ascii.eqb c "/" then Some r'
          else after_slashes r
      | _ => None
      end
  | EmptyString => None
  end.

Fixpoint authority (s : string) : string :=
  match s with
  | EmptyString => EmptyString
  | String c r =>
      if Ascii.eqb c "/" || Ascii.eqb c "?" || Ascii.eqb c "#" then EmptyString
      else String c (authority r)
  end.

Definition netloc_of (u : string) : option string :=
  match after_slashes u with
  | None => Some EmptyString
  | Some r =>
      let n := authority r in
      if str_contains "[" n || str_contains "]" n then None else Some n
  end.

(** ** Identity formatter *)

(** The sender as the platform delivers it ([telegram.User]); an attribute
    that is absent is [None]. *)
Record User := {
  user_id : Z;
  username : option string;
  first_name : option string;
  last_name : option string
}.

Record Chat := { chat_type : string }.

Record Message := {
  message_id : Z;
  text : option string;
  chat_id : Z;
  chat : option Chat;
  from_user : option User
}.

Record Update := { effective_message : option Message }.

(** [[p for p in parts if p]]. *)
Fixpoint truthy_parts (parts : list (option string)) : list string :=
  match parts with
  | [] => []
  | Some p :: rest => if str_truthy p then p :: truthy_parts rest else truthy_parts rest
  | None :: rest => truthy_parts rest
  end.

Definition _display_name_from_msg (msg : Message) : string :=
  match from_user msg with
  | None => "unknown"
  | Some u =>
      if opt_truthy (username u) then "@" +:+ default "" (username u)
      else
        let name := str_join " " (truthy_parts [first_name u; last_name u]) in
        if str_truthy name then name else str_of_int (user_id u)
  end.

(** ** Python values, exceptions and results *)

(** What [json()] can return: [None], a [bool], an [int], a [float], a
    [str], a [list] or a [dict] with [str] keys. *)
Inductive pyval : Type :=
| PNone
| PBool (b : bool)
| PInt (n : Z)
| PFloat (f : float)
| PStr (s : string)
| PList (l : list pyval)
| PDict (d : gmap string pyval).

(** Truth value, as [if v], [not v] and [v or w] test it. *)
Definition truthy (v : pyval) : bool :=
  match v with
  | PNone => false
  | PBool b => b
  | PInt n => negb (n =? 0)%Z
  | PFloat f => negb (PrimFloat.eqb f 0%float)
  | PStr s => str_truthy s
  | PList l => match l with [] => false | _ :: _ => true end
  | PDict d => negb (bool_decide (d = ∅))
  end.

(** [v or w]. *)
Definition py_or (v w : pyval) : pyval := if truthy v then v else w.

(** The exceptions of the model, all instances of [Exception]. *)
Inductive exn : Type :=
| AttributeError
| ClientResponseError (status : Z)
| FileNotFoundError (path : string)
| OtherError (name : string).

Inductive result (A : Type) : Type :=
| Ok (a : A)
| Raised (e : exn).
Arguments Ok {A} a.
Arguments Raised {A} e.

(** ** The outside world *)

(** The body of a response read with [content.iter_chunked]: chunks, until
    the end of the body or a failure of the transport. *)
Inductive stream : Type :=
| Eof
| Chunk (data : list Byte.byte) (rest : stream)
| Broken (e : exn).

Record request := {
  req_url : pyval;
  req_params : list (string * string);
  req_timeout : Z
}.

Record response := {
  status : Z;
  json : result pyval;
  content : stream
}.

(** What [send_video] is given: a value passed on as it is (the resolved
    URL), or an open file, here its name and the bytes read from it. *)
Inductive video : Type :=
| ByReference (v : pyval)
| ByUpload (name : string) (data : list Byte.byte).

(** The platform operations the program uses. *)
Inductive bot_call : Type :=
| delete_message (chat message : Z)
| send_chat_action (chat : Z) (action : string)
| send_message (chat : Z) (text : string)
| send_video (chat : Z) (v : video) (caption : string).

(** The file-system operations the program uses. *)
Inductive syscall : Type :=
| sys_create (path : string)
| sys_write (path : string) (offset : nat) (data : list Byte.byte)
| sys_open (path : string)
| sys_unlink (path : string).

Inductive event : Type :=
| Bot (c : bot_call)
| HttpGet (r : request)
| ReadJson
| LogRecord (level : string) (message : string).

Record world := {
  fs : gmap string (list Byte.byte);
  handles : gset string;
  calls : list event
}.

Record environment := {
  TIKTOK_API_BASE : string;
  http_get : request -> result response;
  bot_fault : bot_call -> option exn;
  os_fault : syscall -> option exn;
  tmp_stem : string
}.

(** ** The monad of effectful code *)

Definition M (A : Type) : Type := world -> result A * world.

Global Instance M_ret : MRet M := fun A (a : A) w => (Ok a, w).

Global Instance M_bind : MBind M := fun A B (k : A -> M B) (m : M A) w =>
  match m w with
  | (Ok a, w') => k a w'
  | (Raised e, w') => (Raised e, w')
  end.

Definition raise {A} (e : exn) : M A := fun w => (Raised e, w).

(** [try: body / except Exception as e: handler e]. *)
Definition try_except {A} (body : M A) (handler : exn -> M A) : M A :=
  fun w =>
    match body w with
    | (Ok a, w') => (Ok a, w')
    | (Raised e, w') => handler e w'
    end.

(** [try: body / finally: cleanup]: the cleanup runs on both exits; an
    exception of the cleanup replaces the outcome of the body. *)
Definition try_finally {A} (body : M A) (cleanup : M unit) : M A :=
  fun w =>
    match body w with
    | (r, w') =>
        match cleanup w' with
        | (Ok _, w'') => (r, w'')
        | (Raised e, w'') => (Raised e, w'')
        end
    end.

Definition emit (ev : event) : M unit :=
  fun w => (Ok tt, {| fs := fs w; handles := handles w; calls := calls w ++ [ev] |}).

Definition log_warning (message : string) : M unit := emit (LogRecord "WARNING" message).
Definition log_exception (message : string) : M unit := emit (LogRecord "ERROR" message).

Section Program.

Variable urlparse_netloc : string -> option string.
Variable E : environment.

(** *** Platform and HTTP calls *)

(** [await context.bot.<call>] (and [msg.delete()]): the call is recorded,
    then fails or not as the platform decides. *)
Definition bot (c : bot_call) : M unit :=
  emit (Bot c) ;;
  match bot_fault E c with
  | Some e => raise e
  | None => mret tt
  end.

(** [session.get(url, params=..., timeout=...)]. *)
Definition session_get (req : request) : M response :=
  emit (HttpGet req) ;;
  match http_get E req with
  | Ok r => mret r
  | Raised e => raise e
  end.

(** [await r.json()]. *)
Definition read_json (r : response) : M pyval :=
  emit ReadJson ;;
  match json r with
  | Ok v => mret v
  | Raised e => raise e
  end.

(** [r.raise_for_status()]: raises for a status of 400 and above. *)
Definition raise_for_status (r : response) : M unit :=
  if (400 <=? status r)%Z then raise (ClientResponseError (status r)) else mret tt.

(** [v.get(key)]: a lookup with default [None] on a [dict]; no other value
    of [pyval] has the attribute [get]. *)
Definition py_get (v : pyval) (key : string) : M pyval :=
  match v with
  | PDict d => mret (default PNone (d !! key))
  | _ => raise AttributeError
  end.

(** *** Files *)

(** [tempfile.NamedTemporaryFile(delete=False, suffix=suffix)]: an empty
    file under a name of its own, left open for writing.  The name is the
    one the environment picks (the library takes one that is not in use)
    followed by the suffix. *)
Definition NamedTemporaryFile (suffix : string) : M string :=
  let name := tmp_stem E +:+ suffix in
  match os_fault E (sys_create name) with
  | Some e => raise e
  | None =>
      fun w => (Ok name, {| fs := <[name := []]> (fs w);
                            handles := {[name]} ∪ handles w;
                            calls := calls w |})
  end.

(** [tmp.write(data)]: appends to the file, unless the write fails.  Writes
    reach the file at once, so that closing has nothing left to flush. *)
Definition file_write (path : string) (data : list Byte.byte) : M unit :=
  fun w =>
    match os_fault E (sys_write path (length (default [] (fs w !! path))) data) with
    | Some e => (Raised e, w)
    | None => (Ok tt, {| fs := alter (fun old => old ++ data) path (fs w);
                         handles := handles w;
                         calls := calls w |})
    end.

(** [tmp.close()], and the exit of [with open(...)]. *)
Definition file_close (path : string) : M unit :=
  fun w => (Ok tt, {| fs := fs w; handles := handles w ∖ {[path]}; calls := calls w |}).

(** [os.remove(path)]. *)
Definition os_remove (path : string) : M unit :=
  fun w =>
    match os_fault E (sys_unlink path) with
    | Some e => (Raised e, w)
    | None =>
        match fs w !! path with
        | Some _ => (Ok tt, {| fs := delete path (fs w); handles := handles w; calls := calls w |})
        | None => (Raised (FileNotFoundError path), w)
        end
    end.

(** [with open(path, "rb") as f: body f]: [f] is read as the bytes of the
    file; the handle is closed on every exit of the body. *)
Definition with_open_rb {A} (path : string) (body : list Byte.byte -> M A) : M A :=
  fun w =>
    match os_fault E (sys_open path) with
    | Some e => (Raised e, w)
    | None =>
        match fs w !! path with
        | None => (Raised (FileNotFoundError path), w)
        | Some data =>
            try_finally (body data) (file_close path)
              {| fs := fs w; handles := {[path]} ∪ handles w; calls := calls w |}
        end
    end.

(** *** Resolver client *)

(** How a [try] block is left when it does not raise: by a [return], or by
    reaching its end with the variables it has assigned. *)
Inductive block_exit (R A : Type) : Type :=
| Return (r : R)
| Fallthrough (a : A).
Arguments Return {R A} r.
Arguments Fallthrough {R A} a.

(** [for key in keys: v = d.get(key); if v: return v] and the final
    [return None]. *)
Fixpoint probe (d : pyval) (keys : list string) : M pyval :=
  match keys with
  | [] => mret PNone
  | key :: rest =>
      v ← py_get d key;
      if truthy v then mret v else probe d rest
  end.

Definition resolve_tiktok_direct_url (tiktok_url : string) : M pyval :=
  t ← try_except
        (r ← session_get {| req_url := PStr (TIKTOK_API_BASE E);
                            req_params := [("url", tiktok_url); ("hd", "1")];
                            req_timeout := 30 |};
         if negb (status r =? 200)%Z then
           log_warning "API status %s";;
           mret (Return PNone)
         else
           data ← read_json r;
           mret (Fallthrough data))
        (fun e =>
           log_exception "Resolver error: %s";;
           mret (Return PNone));
  match t with
  | Return v => mret v
  | Fallthrough data =>
      d ← py_get (py_or data (PDict ∅)) "data";
      probe (py_or d (PDict ∅)) ["hdplay"; "play"; "wmplay"]
  end.

(** *** Transfer manager *)

(** [async for chunk in r.content.iter_chunked(128 * 1024):
    tmp.write(chunk)]. *)
Fixpoint write_chunks (path : string) (body : stream) : M unit :=
  match body with
  | Eof => mret tt
  | Chunk data rest => file_write path data;; write_chunks path rest
  | Broken e => raise e
  end.

Definition download_to_tempfile (url : pyval) : M string :=
  tmp_path ← NamedTemporaryFile ".mp4";
  try_except
    (r ← session_get {| req_url := url; req_params := []; req_timeout := 120 |};
     raise_for_status r;;
     write_chunks tmp_path (content r);;
     file_close tmp_path;;
     mret tmp_path)
    (fun e =>
       file_close tmp_path;;
       try_except (os_remove tmp_path) (fun _ => mret tt);;
       raise e).

(** *** Delivery orchestrator *)

(** [x = None / try: x = first; rest / finally: cleanup]: the [finally]
    block reads [x], which is still [None] when [first] raised. *)
Definition try_assign_finally {A B}
    (first : M A) (rest : A -> M B) (cleanup : option A -> M unit) : M B :=
  fun w =>
    match first w with
    | (Raised e, w') => try_finally (raise e) (cleanup None) w'
    | (Ok a, w') => try_finally (rest a) (cleanup (Some a)) w'
    end.

(** The text of the one notice sent to the user; its apostrophe is U+2019
    RIGHT SINGLE QUOTATION MARK. *)
Definition unresolved_notice : string :=
  "Couldn’t resolve that TikTok link. Try a different one?".

(** The block of [handle_message] that deletes the original message in a
    group or supergroup; a failure is logged and goes no further. *)
Definition delete_original (msg : Message) : M unit :=
  match chat msg with
  | Some c =>
      if bool_decide (chat_type c ∈ ["group"; "supergroup"]) then
        try_except
          (bot (delete_message (chat_id msg) (message_id msg)))
          (fun e => log_warning "Couldn't delete message: %s")
      else mret tt
  | None => mret tt
  end.

(** The block that signals the upload; a failure is ignored. *)
Definition signal_upload (chat : Z) : M unit :=
  try_except
    (bot (send_chat_action chat "upload_video"))
    (fun _ => mret tt).

(** The block that lets the platform fetch the video by its URL: [true]
    when the video went out (the handler then returns), [false] when the
    call raised (the handler goes on to the fallback). *)
Definition send_by_reference (chat : Z) (direct_url : pyval) (caption : string) : M bool :=
  try_except
    (bot (send_video chat (ByReference direct_url) caption);;
     mret true)
    (fun e =>
       log_warning "Direct send failed, will try uploading: %s";;
       mret false).

(** The fallback block: download, then upload, and remove the file in the
    [finally] clause. *)
Definition upload_fallback (chat : Z) (direct_url : pyval) (caption : string) : M unit :=
  try_assign_finally
    (download_to_tempfile direct_url)
    (fun path =>
       with_open_rb path (fun f =>
         bot (send_video chat (ByUpload path f) caption)))
    (fun path =>
       if opt_truthy path then
         try_except (os_remove (default "" path)) (fun _ => mret tt)
       else mret tt).

Definition handle_message (update : Update) : M unit :=
  match effective_message update with
  | None => mret tt
  | Some msg =>
      if negb (opt_truthy (text msg)) then mret tt
      else
        let tiktok_url := _extract_tiktok_url_from_text urlparse_netloc (text msg) in
        if negb (opt_truthy tiktok_url) then mret tt
        else
          let sender := _display_name_from_msg msg in
          let caption := "Send By : " +:+ sender in
          delete_original msg;;
          signal_upload (chat_id msg);;
          direct_url ← resolve_tiktok_direct_url (default "" tiktok_url);
          if negb (truthy direct_url) then
            bot (send_message (chat_id msg) unresolved_notice)
          else
            sent ← send_by_reference (chat_id msg) direct_url caption;
            if (sent : bool) then mret tt
            else upload_fallback (chat_id msg) direct_url caption
  end.

End Program.

(** ** Notions the statements are written in *)

(** The matches occur in the text in the order of the list, one after the
    other: the text is a gap, the first match, and a rest in which the
    others occur. *)
Inductive occur_in_order : list string -> string -> Prop :=
| occur_none (t : string) : occur_in_order [] t
| occur_next (gap m rest : string) (ms : list string) :
    occur_in_order ms rest ->
    occur_in_order (m :: ms) (gap +:+ m +:+ rest).

Section Allowed.

Variable urlparse_netloc : string -> option string.

(** The host of the URL [u] is in the allow-list, case and a trailing port
    left aside: the authority of [u], in lower case, is an allowed host,
    or an allowed host, a colon and a port. *)
Definition host_allowed (u : string) : Prop :=
  exists netloc h,
    urlparse_netloc u = Some netloc /\
    h ∈ _ALLOWED_TT_HOSTS /\
    (lower netloc = h \/ exists port, lower netloc = h +:+ ":" +:+ port).


End Allowed.

(** The non-empty ones among first and last name, following the words of
    the contract. *)
Definition present (o : option string) : list string :=
  match o with
  | Some (String c s) => [String c s]
  | _ => []
  end.

Definition name_parts (u : User) : list string :=
  present (first_name u) ++ present (last_name u).



(** The world after some more calls. *)
Definition add_calls (w : world) (evs : list event) : world :=
  {| fs := fs w; handles := handles w; calls := calls w ++ evs |}.

Definition empty_world : world := {| fs := ∅; handles := ∅; calls := [] |}.

(** The request of the resolver and the request of the download. *)
Definition api_request (E : environment) (tiktok_url : string) : request :=
  {| req_url := PStr (TIKTOK_API_BASE E);
     req_params := [("url", tiktok_url); ("hd", "1")];
     req_timeout := 30 |}.

Definition media_request (url : pyval) : request :=
  {| req_url := url; req_params := []; req_timeout := 120 |}.

(** What the resolver returns and the calls it makes: the world has no
    part in either ([resolve_run] below). *)
Definition resolver_result (E : environment) (tiktok_url : string) : result pyval :=
  fst (resolve_tiktok_direct_url E tiktok_url empty_world).

Definition resolver_calls (E : environment) (tiktok_url : string) : list event :=
  calls (snd (resolve_tiktok_direct_url E tiktok_url empty_world)).

(** The name of the temporary file. *)
Definition tmp_path (E : environment) : string := tmp_stem E +:+ ".mp4".

(** All the bytes of a body. *)
Fixpoint stream_bytes (body : stream) : list Byte.byte :=
  match body with
  | Chunk data rest => data ++ stream_bytes rest
  | Eof | Broken _ => []
  end.

(** The first failure met while a body is copied to the file [path] from
    offset [offset] on, a broken transport or a failed write, and the bytes
    that are in the file by then. *)
Fixpoint copy_failure (E : environment) (path : string) (offset : nat) (body : stream)
    : option exn :=
  match body with
  | Eof => None
  | Broken e => Some e
  | Chunk data rest =>
      match os_fault E (sys_write path offset data) with
      | Some e => Some e
      | None => copy_failure E path (offset + length data) rest
      end
  end.

Fixpoint copied (E : environment) (path : string) (offset : nat) (body : stream)
    : list Byte.byte :=
  match body with
  | Eof | Broken _ => []
  | Chunk data rest =>
      match os_fault E (sys_write path offset data) with
      | Some _ => []
      | None => data ++ copied E path (offset + length data) rest
      end
  end.

(** The failure of a transfer, if any: of the creation of the file, of the
    request, of the status check, or of the copy. *)
Definition transfer_failure (E : environment) (url : pyval) : option exn :=
  match os_fault E (sys_create (tmp_path E)) with
  | Some e => Some e
  | None =>
      match http_get E (media_request url) with
      | Raised e => Some e
      | Ok r =>
          if (400 <=? status r)%Z then Some (ClientResponseError (status r))
          else copy_failure E (tmp_path E) 0 (content r)
      end
  end.

(** The bytes in the temporary file when a transfer ends, well or not. *)
Definition transferred (E : environment) (url : pyval) : list Byte.byte :=
  match http_get E (media_request url) with
  | Raised _ => []
  | Ok r =>
      if (400 <=? status r)%Z then []
      else copied E (tmp_path E) 0 (content r)
  end.

(** The messages and the videos among some calls. *)
Definition sent_messages (evs : list event) : list (Z * string) :=
  omap (fun ev => match ev with
                  | Bot (send_message c t) => Some (c, t)
                  | _ => None
                  end) evs.

Definition sent_videos (evs : list event) : list (Z * video * string) :=
  omap (fun ev => match ev with
                  | Bot (send_video c v t) => Some (c, v, t)
                  | _ => None
                  end) evs.

(** The calls a handling of [msg] may make: a message is the notice of an
    unresolved link, a video carries the caption that names the sender, both
    go to the chat of [msg]. *)
Definition expected_call (msg : Message) (ev : event) : Prop :=
  match ev with
  | Bot (send_message c t) => c = chat_id msg /\ t = unresolved_notice
  | Bot (send_video c _ cap) =>
      c = chat_id msg /\ cap = "Send By : " +:+ _display_name_from_msg msg
  | _ => True
  end.

(** Calls that are not calls of the platform. *)
Definition not_bot (ev : event) : Prop :=
  match ev with
  | Bot _ => False
  | _ => True
  end.

(** Calls that send neither a message nor a video. *)
Definition sends_nothing (ev : event) : Prop :=
  match ev with
  | Bot (send_message _ _) | Bot (send_video _ _ _) => False
  | _ => True
  end.

(** [m] changes nothing but the log of calls: it returns [r] and adds
    calls that all satisfy [Q], whatever the world. *)
Definition logs {A} (Q : event -> Prop) (m : M A) (r : result A) : Prop :=
  exists evs, Forall Q evs /\ forall w, m w = (r, add_calls w evs).

(** Every call [m] adds satisfies [Q]. *)
Definition emits_only {A} (Q : event -> Prop) (m : M A) : Prop :=
  forall w, exists evs, calls (snd (m w)) = calls w ++ evs /\ Forall Q evs.

(** The first value among the fields [keys] of [d] that is not empty, and
    [None] when there is none: the order of preference in the words of the
    contract. *)
Fixpoint first_nonempty (d : gmap string pyval) (keys : list string) : pyval :=
  match keys with
  | [] => PNone
  | key :: rest =>
      match d !! key with
      | Some v => if truthy v then v else first_nonempty d rest
      | None => first_nonempty d rest
      end
  end.

(** ** Scenarios

    Environments for the examples: the resolver answers [api], the media
    host answers [media] (the request of the download is the one without
    query parameters), and the platform and the file system fail as
    [bot_f] and [os_f] say. *)
Definition scenario (api media : result response)
    (bot_f : bot_call -> option exn) (os_f : syscall -> option exn) : environment :=
  {| TIKTOK_API_BASE := "https://www.tikwm.com/api/";
     http_get := fun req => match req_params req with [] => media | _ => api end;
     bot_fault := bot_f;
     os_fault := os_f;
     tmp_stem := "/tmp/tmpk3q9x_2a" |}.

Definition json_reply (code : Z) (body : pyval) : result response :=
  Ok {| status := code; json := Ok body; content := Eof |}.

Definition media_reply (code : Z) (body : stream) : result response :=
  Ok {| status := code; json := Raised (OtherError "ContentTypeError"); content := body |}.

Definition no_bot_fault : bot_call -> option exn := fun _ => None.
Definition no_os_fault : syscall -> option exn := fun _ => None.

(** The platform refuses a video given by reference and accepts the rest. *)
Definition reference_refused : bot_call -> option exn :=
  fun c =>
    match c with
    | send_video _ (ByReference _) _ => Some (OtherError "BadRequest")
    | _ => None
    end.


(** The file system refuses to remove files. *)
Definition unlink_refused : syscall -> option exn :=
  fun c =>
    match c with
    | sys_unlink _ => Some (OtherError "PermissionError")
    | _ => None
    end.

Definition hd_body : pyval :=
  PDict {[ "data" := PDict {[ "hdplay" := PStr "https://cdn/x.mp4" ]} ]}.

Definition empty_data_body : pyval := PDict {[ "data" := PDict ∅ ]}.

(** A resolver answer whose [data] is a text, not an object. *)
Definition text_data_body : pyval :=
  PDict {[ "code" := PInt (-1); "data" := PStr "not found" ]}.

Definition shared_link : string := "check this out https://vm.tiktok.com/ZMxyz/".

Definition two_chunks : stream :=
  Chunk [Byte.x00; Byte.x00; Byte.x00; Byte.x18] (Chunk [Byte.x66; Byte.x74] Eof).

Definition cut_after_one_chunk : stream :=
  Chunk [Byte.x00; Byte.x00; Byte.x00; Byte.x18] (Broken (OtherError "TimeoutError")).

Definition message_of (t kind : string) : Update :=
  {| effective_message :=
       Some {| message_id := 7;
               text := Some t;
               chat_id := 42;
               chat := Some {| chat_type := kind |};
               from_user := Some {| user_id := 1001;
                                    username := Some "alice";
                                    first_name := Some "Alice";
                                    last_name := None |} |} |}.

(** ** Notions of the further properties *)

Definition is_dict (v : pyval) : bool :=
  match v with
  | PDict _ => true
  | _ => false
  end.

(** A decoded body on which the resolver calls [get] on something that is
    not a [dict]: the body itself, when it is not empty and not a [dict],
    or what it holds under ["data"], when that is not empty and not a
    [dict]. *)
Definition misshapen (data : pyval) : Prop :=
  truthy data = true /\
  (is_dict data = false \/
   exists body v, data = PDict body /\ body !! "data" = Some v /\
                  truthy v = true /\ is_dict v = false).

(** A call of the resolver that follows its one request: the decoding of
    the body, or a record in the log. *)
Definition decodes_or_logs (ev : event) : Prop :=
  match ev with
  | ReadJson | LogRecord _ _ => True
  | _ => False
  end.

(** The test [msg.chat and msg.chat.type in ("group", "supergroup")]. *)
Definition in_group (msg : Message) : bool :=
  match chat msg with
  | Some c => bool_decide (chat_type c ∈ ["group"; "supergroup"])
  | None => false
  end.

(** The calls of the moderation step: none outside a group; in a group the
    deletion, and a warning when it failed. *)
Definition moderation_calls (E : environment) (msg : Message) : list event :=
  if in_group msg then
    Bot (delete_message (chat_id msg) (message_id msg))
    :: match bot_fault E (delete_message (chat_id msg) (message_id msg)) with
       | Some _ => [LogRecord "WARNING" "Couldn't delete message: %s"]
       | None => []
       end
  else [].

(** The part of [handle_message] that follows the resolution, for the
    answer [direct_url] of the resolver. *)
Definition deliver (E : environment) (chat : Z) (caption : string) (direct_url : pyval)
    : M unit :=
  if negb (truthy direct_url) then
    bot E (send_message chat unresolved_notice)
  else
    sent ← send_by_reference E chat direct_url caption;
    if (sent : bool) then mret tt
    else upload_fallback E chat direct_url caption.

(** The files after the fallback has tried to remove the temporary file
    that holds what was transferred from [url]. *)
Definition after_removal (E : environment) (url : pyval)
    (files : gmap string (list Byte.byte)) : gmap string (list Byte.byte) :=
  match os_fault E (sys_unlink (tmp_path E)) with
  | None => delete (tmp_path E) files
  | Some _ => <[tmp_path E := transferred E url]> files
  end.

(** Calls that delete no message. *)
Definition not_delete (ev : event) : Prop :=
  match ev with
  | Bot (delete_message _ _) => False
  | _ => True
  end.

(** The platform refuses to delete messages and to show chat actions, and
    accepts the rest. *)
Definition courtesies_refused : bot_call -> option exn :=
  fun c =>
    match c with
    | delete_message _ _ => Some (OtherError "BadRequest")
    | send_chat_action _ _ => Some (OtherError "TimedOut")
    | _ => None
    end.

(** The caption of the videos sent for [msg]. *)
Definition caption_of (msg : Message) : string :=
  "Send By : " +:+ _display_name_from_msg msg.

(** ASCII whitespace, as a character. *)
Definition ascii_space (c : ascii) : bool :=
  let n := N_of_ascii c in
  (9 <=? n) && (n <=? 13) || (28 <=? n) && (n <=? 32).

(** Symbolic execution: the combinators of the monad are unfolded and the
    matches on known outcomes reduced; [finish] compares the worlds. *)
Ltac run :=
  unfold session_get, read_json, raise_for_status, log_warning, log_exception, bot;
  unfold try_except, try_finally, emit, raise, mbind, M_bind, mret, M_ret;
  cbn beta iota zeta delta [negb fst snd fs handles calls].

Ltac finish :=
  run; unfold add_calls; cbn beta iota zeta delta [fs handles calls];
  rewrite <- ?app_assoc; reflexivity.

(** ** Strings: facts *)

Lemma str_app_cons (c : ascii) (s t : string) : String c s +:+ t = String c (s +:+ t).
Proof. reflexivity. Qed.

Lemma str_app_nil_l (s : string) : "" +:+ s = s.
Proof. reflexivity. Qed.

Lemma str_app_assoc (a b c : string) : (a +:+ b) +:+ c = a +:+ b +:+ c.
Proof. induction a as [|x a IH]; [done | by rewrite !str_app_cons, IH]. Qed.

Lemma str_app_length (a b : string) :
  String.length (a +:+ b) = (String.length a + String.length b)%nat.
Proof. induction a as [|x a IH]; [done | rewrite str_app_cons; simpl; lia]. Qed.

Lemma str_truthy_nonempty (s : string) : str_truthy s = true <-> s <> "".
Proof. destruct s; simpl; split; try done. Qed.

Lemma str_contains_split (ch : ascii) (s : string) :
  str_contains ch s = true ->
  exists rest, s = split_head ch s +:+ String ch rest.
Proof.
  induction s as [|c s IH]; simpl; [done |].
  destruct (Ascii.eqb_spec c ch) as [-> | Hne]; simpl.
  - intros _. by exists s.
  - intros H. destruct (IH H) as [rest Hrest]. exists rest.
    by rewrite str_app_cons, <- Hrest.
Qed.

Lemma str_contains_middle (ch : ascii) (a b : string) :
  str_contains ch (a +:+ String ch b) = true.
Proof.
  induction a as [|c a IH]; [rewrite str_app_nil_l | rewrite str_app_cons]; simpl.
  - by rewrite Ascii.eqb_refl.
  - by rewrite IH, orb_true_r.
Qed.

Lemma split_head_middle (ch : ascii) (a b : string) :
  str_contains ch a = false ->
  split_head ch (a +:+ String ch b) = a.
Proof.
  induction a as [|c a IH]; [rewrite str_app_nil_l | rewrite str_app_cons]; simpl.
  - by rewrite Ascii.eqb_refl.
  - intros [Hc Ha]%orb_false_elim. rewrite Hc. by rewrite IH.
Qed.

Lemma allowed_hosts_cases (h : string) :
  h ∈ _ALLOWED_TT_HOSTS <->
  h = "tiktok.com" \/ h = "www.tiktok.com" \/ h = "m.tiktok.com"
  \/ h = "vm.tiktok.com" \/ h = "vt.tiktok.com".
Proof.
  unfold _ALLOWED_TT_HOSTS. rewrite !elem_of_union, !elem_of_singleton. tauto.
Qed.

Lemma allowed_host_no_colon (h : string) :
  h ∈ _ALLOWED_TT_HOSTS -> str_contains ":" h = false.
Proof.
  intros H. apply allowed_hosts_cases in H.
  destruct H as [-> | [-> | [-> | [-> | ->]]]]; reflexivity.
Qed.

Lemma str_of_int_nonempty (n : Z) : str_of_int n <> "".
Proof.
  unfold str_of_int.
  assert (Hu : forall d, d <> Decimal.Nil -> NilEmpty.string_of_uint d <> "")
    by (intros [] Hd; simpl; congruence).
  destruct n as [|p|p]; simpl; try done.
  apply Hu, Unsigned.to_uint_nonnil.
Qed.

(** ** Link matcher: facts *)

Lemma lit_ci_split (pat s m r : string) :
  lit_ci pat s = Some (m, r) -> s = m +:+ r.
Proof.
  revert s m r. induction pat as [|p pat IH]; intros s m r; simpl.
  - by intros [= <- <-].
  - destruct s as [|c s]; [done |].
    destruct (Ascii.eqb (lower_char c) p); [| done].
    destruct (lit_ci pat s) as [[m' r'] |] eqn:Hrec; [| done].
    intros [= <- <-]. rewrite str_app_cons. f_equal. by apply IH.
Qed.

Lemma lit_ci_cons (p : ascii) (pat s m r : string) :
  lit_ci (String p pat) s = Some (m, r) -> exists c m', m = String c m'.
Proof.
  simpl. destruct s as [|c s]; [done |].
  destruct (Ascii.eqb (lower_char c) p); [| done].
  destruct (lit_ci pat s) as [[m' r'] |]; [| done].
  intros [= <- <-]. eauto.
Qed.

Lemma lit_s_split (s m r : string) : lit_s s = Some (m, r) -> s = m +:+ r.
Proof.
  unfold lit_s. destruct s as [|c s]; [done |].
  destruct (Ascii.eqb (lower_char c) "s").
  - by intros [= <- <-].
  - destruct s as [|d s]; [done |].
    destruct (_ && _); [| done]. by intros [= <- <-].
Qed.

Lemma url_body_split (s m r : string) : url_body s = (m, r) -> s = m +:+ r.
Proof.
  revert m r. induction s as [|c s IH]; intros m r.
  - by intros [= <- <-].
  - cbn [url_body]. destruct (space_at (String c s) || Ascii.eqb c ")").
    + by intros [= <- <-].
    + destruct (url_body s) as [m' r'] eqn:Hrec. intros [= <- <-].
      rewrite str_app_cons. f_equal. by apply IH.
Qed.

Lemma match_tail_split (pre s m r : string) :
  match_tail pre s = Some (m, r) ->
  pre +:+ s = m +:+ r /\ exists x, m = pre +:+ x.
Proof.
  unfold match_tail.
  destruct (lit_ci "://" s) as [[m1 r1] |] eqn:Hlit; [| done].
  destruct (url_body r1) as [b rest] eqn:Hbody.
  destruct b as [|c b]; [done |]. intros [= <- <-].
  apply lit_ci_split in Hlit as ->. apply url_body_split in Hbody as ->.
  split; [by rewrite !str_app_assoc | eauto].
Qed.

(** A match is a prefix of the text, and is not empty. *)
Lemma URL_RE_match_split (s m r : string) :
  URL_RE_match s = Some (m, r) -> s = m +:+ r /\ m <> "".
Proof.
  unfold URL_RE_match.
  destruct (lit_ci "http" s) as [[m0 r0] |] eqn:H0; [| done].
  destruct (lit_ci_cons _ _ _ _ _ H0) as (c & m0' & ->).
  apply lit_ci_split in H0 as ->.
  assert (Hplain : match_tail (String c m0') r0 = Some (m, r) ->
                   String c m0' +:+ r0 = m +:+ r /\ m <> "").
  { intros [Heq [x ->]]%match_tail_split. by rewrite Heq, str_app_cons. }
  destruct (lit_s r0) as [[ms r1] |] eqn:Hs; [| done].
  apply lit_s_split in Hs as ->.
  destruct (match_tail (String c m0' +:+ ms) r1) as [found |] eqn:Ht; [| done].
  intros [= ->]. apply match_tail_split in Ht as [Heq [x ->]].
  by rewrite <- Heq, !str_app_assoc, !str_app_cons.
Qed.

(** The search resumes where the last match ends. *)
Lemma finditer_from_skip (m rest : string) :
  finditer_from (String.length m) (m +:+ rest) = finditer_from 0 rest.
Proof.
  induction m as [|c m IH]; [done |].
  rewrite str_app_cons. simpl. apply IH.
Qed.

Lemma occur_in_order_cons (c : ascii) (ms : list string) (t : string) :
  occur_in_order ms t -> occur_in_order ms (String c t).
Proof.
  intros [t' | gap m rest ms' H]; [constructor |].
  rewrite <- str_app_cons. by constructor.
Qed.

(** The matches are listed in the order in which they stand in the text,
    and do not overlap. *)
Lemma finditer_in_order (t : string) : occur_in_order (URL_RE_finditer t) t.
Proof.
  unfold URL_RE_finditer.
  remember (String.length t) as n eqn:Hn.
  assert (Hle : (String.length t <= n)%nat) by lia. clear Hn.
  revert t Hle. induction n as [|n IH]; intros [|c t] Hle; simpl in *;
    try constructor; try lia.
  destruct (URL_RE_match (String c t)) as [[m r] |] eqn:Hm.
  - apply URL_RE_match_split in Hm as [Heq Hne].
    destruct m as [|c' m]; [done |]. rewrite str_app_cons in Heq.
    injection Heq as <- ->. simpl. rewrite Nat.sub_0_r, finditer_from_skip.
    change (String c (m +:+ r)) with ("" +:+ String c m +:+ r).
    constructor. apply IH. rewrite str_app_length in Hle. lia.
  - apply occur_in_order_cons, IH. lia.
Qed.

Section LinkMatcherFacts.

Variable urlparse_netloc : string -> option string.

(** [_is_tiktok_link] decides [host_allowed]. *)
Lemma is_tiktok_link_iff (u : string) :
  _is_tiktok_link urlparse_netloc u = true <-> host_allowed urlparse_netloc u.
Proof.
  unfold _is_tiktok_link, host_allowed. split.
  - destruct (urlparse_netloc u) as [netloc |]; [| done].
    destruct (str_contains ":" (lower netloc)) eqn:Hc; intros H%bool_decide_eq_true_1.
    + destruct (str_contains_split _ _ Hc) as [port Hport].
      exists netloc, (split_head ":" (lower netloc)).
      repeat split; [done |]. right. by exists port.
    + exists netloc, (lower netloc). repeat split; [done |]. by left.
  - intros (netloc & h & -> & Hh & [-> | [port ->]]).
    + rewrite (allowed_host_no_colon _ Hh). by apply bool_decide_eq_true_2.
    + change (":" +:+ port) with (String ":" port).
      rewrite str_contains_middle, split_head_middle
        by (by apply allowed_host_no_colon).
      by apply bool_decide_eq_true_2.
Qed.




End LinkMatcherFacts.

Lemma finditer_from_nonempty (skip : nat) (s m : string) :
  m ∈ finditer_from skip s -> m <> "".
Proof.
  revert skip. induction s as [|c s IH]; intros skip; simpl.
  - by intros ?%elem_of_nil.
  - destruct skip as [|k]; [| apply IH].
    destruct (URL_RE_match (String c s)) as [[m' r] |] eqn:Hm; [| apply IH].
    intros [-> | Hin]%elem_of_cons; [| by eapply IH].
    by apply URL_RE_match_split in Hm as [_ ?].
Qed.

Lemma first_tiktok_link_elem (urlparse_netloc : string -> option string)
    (ms : list string) (u : string) :
  first_tiktok_link urlparse_netloc ms = Some u -> u ∈ ms.
Proof.
  induction ms as [|m ms IH]; simpl; [done |].
  destruct (_is_tiktok_link urlparse_netloc m).
  - intros [= ->]. by left.
  - intros H. right. by apply IH.
Qed.

Lemma extract_some_truthy (urlparse_netloc : string -> option string)
    (text : option string) (u : string) :
  _extract_tiktok_url_from_text urlparse_netloc text = Some u ->
  opt_truthy text = true /\ str_truthy u = true.
Proof.
  destruct text as [t |]; simpl; [| done].
  destruct (str_truthy t) eqn:Ht; simpl; [| done].
  intros H%first_tiktok_link_elem. split; [done |].
  apply str_truthy_nonempty. by eapply finditer_from_nonempty.
Qed.

(** ** Identity formatter: facts *)

Lemma truthy_parts_names (u : User) :
  truthy_parts [first_name u; last_name u] = name_parts u.
Proof.
  unfold name_parts.
  by destruct (first_name u) as [[|] |], (last_name u) as [[|] |].
Qed.


Lemma display_name_nonempty (msg : Message) : _display_name_from_msg msg <> "".
Proof.
  unfold _display_name_from_msg.
  destruct (from_user msg) as [u |]; [| done].
  destruct (opt_truthy (username u)); [done |].
  rewrite truthy_parts_names.
  destruct (str_truthy (str_join " " (name_parts u))) eqn:Hname.
  - by apply str_truthy_nonempty.
  - apply str_of_int_nonempty.
Qed.

(** ** The monad: facts *)

Lemma bind_run {A B} (m : M A) (k : A -> M B) (w : world) :
  (m ≫= k) w =
  match m w with
  | (Ok a, w') => k a w'
  | (Raised e, w') => (Raised e, w')
  end.
Proof. reflexivity. Qed.

Lemma add_calls_nil (w : world) : add_calls w [] = w.
Proof. destruct w. unfold add_calls. simpl. by rewrite app_nil_r. Qed.

Lemma add_calls_app (w : world) (a b : list event) :
  add_calls (add_calls w a) b = add_calls w (a ++ b).
Proof. unfold add_calls. simpl. by rewrite <- app_assoc. Qed.

Lemma logs_ret {A} (Q : event -> Prop) (a : A) : logs Q (mret a) (Ok a).
Proof. exists []. split; [constructor |]. intros w. by rewrite add_calls_nil. Qed.

Lemma logs_raise {A} (Q : event -> Prop) (e : exn) : logs Q (@raise A e) (Raised e).
Proof. exists []. split; [constructor |]. intros w. by rewrite add_calls_nil. Qed.

Lemma logs_unique {A} (Q : event -> Prop) (m : M A) (r : result A) :
  logs Q m r ->
  r = fst (m empty_world) /\
  forall w, m w = (r, add_calls w (calls (snd (m empty_world)))).
Proof.
  intros (evs & _ & H). rewrite (H empty_world). simpl. split; [done |].
  intros w. by rewrite H.
Qed.

(** ** Resolver client: facts *)

Lemma py_or_dict (d : gmap string pyval) : py_or (PDict d) (PDict ∅) = PDict d.
Proof.
  unfold py_or. simpl. destruct (bool_decide_reflect (d = ∅)); simpl; congruence.
Qed.

Lemma py_or_truthy (v w : pyval) : truthy v = true -> py_or v w = v.
Proof. unfold py_or. by intros ->. Qed.

Lemma py_get_run (v : pyval) (key : string) (w : world) :
  py_get v key w =
  (match v with
   | PDict d => Ok (default PNone (d !! key))
   | _ => Raised AttributeError
   end, w).
Proof. by destruct v. Qed.

Lemma probe_dict (d : gmap string pyval) (keys : list string) (w : world) :
  probe (PDict d) keys w = (Ok (first_nonempty d keys), w).
Proof.
  induction keys as [|key keys IH]; [done |].
  cbn [probe first_nonempty]. rewrite bind_run, py_get_run.
  destruct (d !! key) as [v |]; simpl; [| done].
  by destruct (truthy v).
Qed.

Lemma probe_run (d : pyval) (keys : list string) :
  exists r, forall w, probe d keys w = (r, w).
Proof.
  destruct d; try (destruct keys; [by exists (Ok PNone) | by exists (Raised AttributeError)]).
  eexists. intros w. apply probe_dict.
Qed.

Section ResolverFacts.

Variable E : environment.

(** The resolver touches nothing but the log of calls, and calls no
    platform operation; its result is the same in every world. *)
Lemma resolve_logs (url : string) :
  logs not_bot (resolve_tiktok_direct_url E url) (resolver_result E url).
Proof.
  assert (H : exists r, logs not_bot (resolve_tiktok_direct_url E url) r).
  { unfold resolve_tiktok_direct_url, logs.
    destruct (http_get E (api_request E url)) as [r | e] eqn:Hget;
      unfold api_request in Hget.
    - destruct (status r =? 200)%Z eqn:Hs.
      + destruct (json r) as [data | e] eqn:Hj.
        * set (d := match py_or data (PDict ∅) with
                    | PDict d => default PNone (d !! "data")
                    | _ => PNone
                    end).
          destruct (probe_run (py_or d (PDict ∅)) ["hdplay"; "play"; "wmplay"])
            as [res Hres].
          exists (match py_or data (PDict ∅) with
                  | PDict _ => res
                  | _ => Raised AttributeError
                  end), [HttpGet (api_request E url); ReadJson].
          split; [by repeat constructor |].
          intros w. run. rewrite Hget. run. rewrite Hs. run. rewrite Hj. run.
          rewrite py_get_run. subst d.
          destruct (py_or data (PDict ∅)); try rewrite Hres; finish.
        * exists (Ok PNone), [HttpGet (api_request E url); ReadJson;
                              LogRecord "ERROR" "Resolver error: %s"].
          split; [by repeat constructor |].
          intros w. run. rewrite Hget. run. rewrite Hs. run. rewrite Hj. finish.
      + exists (Ok PNone), [HttpGet (api_request E url);
                            LogRecord "WARNING" "API status %s"].
        split; [by repeat constructor |].
        intros w. run. rewrite Hget. run. rewrite Hs. finish.
    - exists (Ok PNone), [HttpGet (api_request E url);
                          LogRecord "ERROR" "Resolver error: %s"].
      split; [by repeat constructor |].
      intros w. run. rewrite Hget. finish. }
  destruct H as [r H]. by destruct (logs_unique _ _ _ H) as [-> _].
Qed.

Lemma resolve_run (url : string) (w : world) :
  resolve_tiktok_direct_url E url w =
  (resolver_result E url, add_calls w (resolver_calls E url)).
Proof. by destruct (logs_unique _ _ _ (resolve_logs url)) as [_ H]. Qed.

(** A transport failure is "no media found". *)
Lemma resolve_transport_failure (url : string) (e : exn) (w : world) :
  http_get E (api_request E url) = Raised e ->
  resolve_tiktok_direct_url E url w =
  (Ok PNone, add_calls w [HttpGet (api_request E url);
                          LogRecord "ERROR" "Resolver error: %s"]).
Proof.
  intros Hget. unfold api_request in Hget. unfold resolve_tiktok_direct_url.
  run. rewrite Hget. finish.
Qed.

(** A status other than 200 is "no media found", and the body is not
    read. *)
Lemma resolve_bad_status (url : string) (r : response) (w : world) :
  http_get E (api_request E url) = Ok r ->
  status r <> 200%Z ->
  resolve_tiktok_direct_url E url w =
  (Ok PNone, add_calls w [HttpGet (api_request E url);
                          LogRecord "WARNING" "API status %s"]).
Proof.
  intros Hget Hs%Z.eqb_neq. unfold api_request in Hget.
  unfold resolve_tiktok_direct_url. run. rewrite Hget. run. rewrite Hs. finish.
Qed.

(** A body that does not parse is "no media found". *)
Lemma resolve_parse_failure (url : string) (r : response) (e : exn) (w : world) :
  http_get E (api_request E url) = Ok r ->
  status r = 200%Z ->
  json r = Raised e ->
  resolve_tiktok_direct_url E url w =
  (Ok PNone, add_calls w [HttpGet (api_request E url); ReadJson;
                          LogRecord "ERROR" "Resolver error: %s"]).
Proof.
  intros Hget Hs%Z.eqb_eq Hj. unfold api_request in Hget.
  unfold resolve_tiktok_direct_url. run. rewrite Hget. run. rewrite Hs. run.
  rewrite Hj. finish.
Qed.

(** A body that parses: what follows the [try] block decides. *)
Lemma resolve_parsed (url : string) (r : response) (data : pyval) (w : world) :
  http_get E (api_request E url) = Ok r ->
  status r = 200%Z ->
  json r = Ok data ->
  resolve_tiktok_direct_url E url w =
  (d ← py_get (py_or data (PDict ∅)) "data";
   probe (py_or d (PDict ∅)) ["hdplay"; "play"; "wmplay"])
    (add_calls w [HttpGet (api_request E url); ReadJson]).
Proof.
  intros Hget Hs%Z.eqb_eq Hj. unfold api_request in Hget.
  unfold resolve_tiktok_direct_url. run. rewrite Hget. run. rewrite Hs. run.
  rewrite Hj. run. unfold add_calls. cbn [fs handles calls].
  by rewrite <- !app_assoc.
Qed.

(** A body that is an object with an object under ["data"]: the order of
    preference. *)
Lemma resolve_data_object (url : string) (r : response)
    (body d : gmap string pyval) (w : world) :
  http_get E (api_request E url) = Ok r ->
  status r = 200%Z ->
  json r = Ok (PDict body) ->
  body !! "data" = Some (PDict d) ->
  resolve_tiktok_direct_url E url w =
  (Ok (first_nonempty d ["hdplay"; "play"; "wmplay"]),
   add_calls w [HttpGet (api_request E url); ReadJson]).
Proof.
  intros Hget Hs Hj Hd. rewrite (resolve_parsed _ _ _ _ Hget Hs Hj).
  rewrite bind_run, py_or_dict, py_get_run, Hd.
  change (default PNone (Some (PDict d))) with (PDict d).
  by rewrite py_or_dict, probe_dict.
Qed.

(** A body that is not an object, or whose ["data"] is not one, and is not
    empty either: [get] is called on it. *)
Lemma resolve_not_object (url : string) (r : response) (data : pyval) (w : world) :
  http_get E (api_request E url) = Ok r ->
  status r = 200%Z ->
  json r = Ok data ->
  truthy data = true ->
  (forall d, data <> PDict d) ->
  resolve_tiktok_direct_url E url w =
  (Raised AttributeError, add_calls w [HttpGet (api_request E url); ReadJson]).
Proof.
  intros Hget Hs Hj Ht Hd. rewrite (resolve_parsed _ _ _ _ Hget Hs Hj).
  rewrite bind_run, py_or_truthy, py_get_run by done.
  destruct data; try done. by destruct (Hd d).
Qed.

Lemma resolve_data_not_object (url : string) (r : response)
    (body : gmap string pyval) (v : pyval) (w : world) :
  http_get E (api_request E url) = Ok r ->
  status r = 200%Z ->
  json r = Ok (PDict body) ->
  body !! "data" = Some v ->
  truthy v = true ->
  (forall d, v <> PDict d) ->
  resolve_tiktok_direct_url E url w =
  (Raised AttributeError, add_calls w [HttpGet (api_request E url); ReadJson]).
Proof.
  intros Hget Hs Hj Hv Ht Hd. rewrite (resolve_parsed _ _ _ _ Hget Hs Hj).
  rewrite bind_run, py_or_dict, py_get_run, Hv.
  change (default PNone (Some v)) with v.
  rewrite py_or_truthy by done. cbn [probe].
  rewrite bind_run, py_get_run.
  destruct v; try done. by destruct (Hd d).
Qed.

End ResolverFacts.

(** ** Transfer manager: facts *)

Lemma world_eta (w : world) :
  {| fs := fs w; handles := handles w; calls := calls w |} = w.
Proof. by destruct w. Qed.

Lemma copied_complete (E : environment) (path : string) (offset : nat) (body : stream) :
  copy_failure E path offset body = None ->
  copied E path offset body = stream_bytes body.
Proof.
  revert offset. induction body as [| data rest IH | e]; intros offset; simpl; [done | | done].
  destruct (os_fault E (sys_write path offset data)); [done |].
  intros H. by rewrite IH.
Qed.

Lemma closed_handle (path : string) (hs : gset string) :
  ({[path]} ∪ hs) ∖ {[path]} = hs ∖ {[path]}.
Proof.
  apply set_eq. intros x.
  rewrite !elem_of_difference, elem_of_union, elem_of_singleton. tauto.
Qed.

Section TransferFacts.

Variable E : environment.

(** The copy loop: it stops at the first failure, and the file holds what
    was written until then. *)
Lemma write_chunks_run (path : string) (body : stream) (old : list Byte.byte) (w : world) :
  fs w !! path = Some old ->
  write_chunks E path body w =
  (match copy_failure E path (length old) body with
   | None => Ok tt
   | Some e => Raised e
   end,
   {| fs := <[path := old ++ copied E path (length old) body]> (fs w);
      handles := handles w;
      calls := calls w |}).
Proof.
  revert old w. induction body as [| data rest IH | e]; intros old w Hold;
    cbn [write_chunks copy_failure copied].
  - rewrite app_nil_r, insert_id, world_eta by done. reflexivity.
  - rewrite bind_run. unfold file_write at 1. rewrite Hold. cbn [default from_option id].
    destruct (os_fault E (sys_write path (length old) data)) as [e |].
    + by rewrite app_nil_r, insert_id, world_eta.
    + rewrite (IH (old ++ data)) by (cbn [fs]; by rewrite lookup_alter_eq, Hold).
      cbn [fs handles calls]. rewrite length_app, <- app_assoc.
      f_equal. f_equal. apply map_eq. intros p.
      destruct (decide (p = path)) as [-> | Hne].
      * by rewrite !lookup_insert_eq.
      * by rewrite !lookup_insert_ne, lookup_alter_ne.
  - by rewrite app_nil_r, insert_id, world_eta.
Qed.

(** The [except] clause of the download: the handle is closed, the removal
    of the file is tried, and the exception goes on. *)
Lemma download_cleanup_run {A} (path : string) (e : exn) (data : list Byte.byte) (w : world) :
  fs w !! path = Some data ->
  (file_close path;;
   try_except (os_remove E path) (fun _ => mret tt);;
   @raise A e) w =
  (Raised e,
   {| fs := match os_fault E (sys_unlink path) with
            | None => delete path (fs w)
            | Some _ => fs w
            end;
      handles := handles w ∖ {[path]};
      calls := calls w |}).
Proof.
  intros Hdata. unfold file_close, os_remove. run.
  destruct (os_fault E (sys_unlink path)); [done |].
  by rewrite Hdata.
Qed.

Lemma download_run (url : pyval) (w : world) :
  download_to_tempfile E url w =
  match os_fault E (sys_create (tmp_path E)) with
  | Some e => (Raised e, w)
  | None =>
      match transfer_failure E url with
      | None =>
          (Ok (tmp_path E),
           {| fs := <[tmp_path E := transferred E url]> (fs w);
              handles := handles w ∖ {[tmp_path E]};
              calls := calls w ++ [HttpGet (media_request url)] |})
      | Some e =>
          (Raised e,
           {| fs := match os_fault E (sys_unlink (tmp_path E)) with
                    | None => delete (tmp_path E) (fs w)
                    | Some _ => <[tmp_path E := transferred E url]> (fs w)
                    end;
              handles := handles w ∖ {[tmp_path E]};
              calls := calls w ++ [HttpGet (media_request url)] |})
      end
  end.
Proof.
  unfold download_to_tempfile, transfer_failure, transferred, NamedTemporaryFile.
  fold (tmp_path E). unfold media_request.
  destruct (os_fault E (sys_create (tmp_path E))) as [e |]; [done |].
  rewrite bind_run. cbn beta iota.
  set (req := {| req_url := url; req_params := []; req_timeout := 120 |}).
  set (w1 := {| fs := <[tmp_path E:=[]]> (fs w);
                handles := {[tmp_path E]} ∪ handles w;
                calls := calls w ++ [HttpGet req] |}).
  unfold try_except at 1. rewrite bind_run. unfold session_get at 1.
  rewrite bind_run. unfold emit at 1. cbn beta iota zeta delta [fs handles calls].
  fold w1.
  destruct (http_get E req) as [r | e].
  - unfold mret at 1, M_ret at 1. rewrite bind_run. unfold raise_for_status at 1.
    destruct (400 <=? status r)%Z.
    + unfold raise at 1. rewrite (download_cleanup_run _ _ []) by apply lookup_insert_eq.
      subst w1. cbn [fs handles calls]. rewrite closed_handle, delete_insert_eq.
      destruct (os_fault E (sys_unlink (tmp_path E))); reflexivity.
    + unfold mret at 1, M_ret at 1. rewrite bind_run.
      rewrite (write_chunks_run _ _ []) by apply lookup_insert_eq.
      cbn [length app]. subst w1. cbn [fs handles calls]. rewrite insert_insert_eq.
      destruct (copy_failure E (tmp_path E) 0 (content r)) as [e |].
      * rewrite (download_cleanup_run _ _ (copied E (tmp_path E) 0 (content r)))
          by apply lookup_insert_eq.
        cbn [fs handles calls]. rewrite closed_handle, delete_insert_eq.
        destruct (os_fault E (sys_unlink (tmp_path E))); reflexivity.
      * unfold file_close. run. by rewrite closed_handle.
  - unfold raise at 1. rewrite (download_cleanup_run _ _ []) by apply lookup_insert_eq.
    subst w1. cbn [fs handles calls]. rewrite closed_handle, delete_insert_eq.
    destruct (os_fault E (sys_unlink (tmp_path E))); reflexivity.
Qed.

End TransferFacts.

(** ** Delivery orchestrator: facts *)

Lemma sent_messages_app (a b : list event) :
  sent_messages (a ++ b) = sent_messages a ++ sent_messages b.
Proof. apply omap_app. Qed.

Lemma sent_videos_app (a b : list event) :
  sent_videos (a ++ b) = sent_videos a ++ sent_videos b.
Proof. apply omap_app. Qed.

Lemma sends_nothing_messages (evs : list event) :
  Forall sends_nothing evs -> sent_messages evs = [] /\ sent_videos evs = [].
Proof.
  induction 1 as [| ev evs Hev _ [IH1 IH2]]; [done |].
  destruct ev as [[] | | |]; simpl in *; try done.
Qed.

Lemma not_bot_sends_nothing (ev : event) : not_bot ev -> sends_nothing ev.
Proof. by destruct ev. Qed.

Lemma sends_nothing_expected (msg : Message) (ev : event) :
  sends_nothing ev -> expected_call msg ev.
Proof. by destruct ev as [[] | | |]. Qed.

Lemma tmp_path_truthy (E : environment) : str_truthy (tmp_path E) = true.
Proof. unfold tmp_path. by destruct (tmp_stem E). Qed.

Lemma reopened_handle (path : string) (hs : gset string) :
  ({[path]} ∪ hs ∖ {[path]}) ∖ {[path]} = hs ∖ {[path]}.
Proof.
  apply set_eq. intros x.
  rewrite !elem_of_difference, elem_of_union, elem_of_difference, elem_of_singleton.
  tauto.
Qed.

Lemma emits_only_logs {A} (Q : event -> Prop) (m : M A) (r : result A) :
  logs Q m r -> emits_only Q m.
Proof. intros (evs & HQ & H) w. exists evs. by rewrite H. Qed.

Lemma emits_only_weaken {A} (Q Q' : event -> Prop) (m : M A) :
  (forall ev, Q ev -> Q' ev) -> emits_only Q m -> emits_only Q' m.
Proof.
  intros HQ H w. destruct (H w) as (evs & Hc & Hall). exists evs.
  split; [done |]. eapply Forall_impl; eauto.
Qed.

Lemma emits_only_silent {A} (Q : event -> Prop) (m : M A) :
  (forall w, calls (snd (m w)) = calls w) -> emits_only Q m.
Proof. intros H w. exists []. by rewrite H, app_nil_r. Qed.

Lemma emits_only_bind {A B} (Q : event -> Prop) (m : M A) (k : A -> M B) :
  emits_only Q m -> (forall a, emits_only Q (k a)) -> emits_only Q (m ≫= k).
Proof.
  intros Hm Hk w. rewrite bind_run. destruct (Hm w) as (e1 & Hc1 & Q1).
  destruct (m w) as [[a | e] w1]; simpl in *; [| by exists e1].
  destruct (Hk a w1) as (e2 & Hc2 & Q2). exists (e1 ++ e2).
  split; [by rewrite Hc2, Hc1, app_assoc | by apply Forall_app].
Qed.

Lemma emits_only_try_except {A} (Q : event -> Prop) (body : M A) (handler : exn -> M A) :
  emits_only Q body -> (forall e, emits_only Q (handler e)) ->
  emits_only Q (try_except body handler).
Proof.
  intros Hm Hk w. unfold try_except. destruct (Hm w) as (e1 & Hc1 & Q1).
  destruct (body w) as [[a | e] w1]; simpl in *; [by exists e1 |].
  destruct (Hk e w1) as (e2 & Hc2 & Q2). exists (e1 ++ e2).
  split; [by rewrite Hc2, Hc1, app_assoc | by apply Forall_app].
Qed.

Lemma emits_only_try_finally {A} (Q : event -> Prop) (body : M A) (cleanup : M unit) :
  emits_only Q body -> emits_only Q cleanup -> emits_only Q (try_finally body cleanup).
Proof.
  intros Hm Hk w. unfold try_finally. destruct (Hm w) as (e1 & Hc1 & Q1).
  destruct (body w) as [r w1]; simpl in *.
  destruct (Hk w1) as (e2 & Hc2 & Q2). exists (e1 ++ e2).
  destruct (cleanup w1) as [[[] | e] w2]; simpl in *;
    (split; [by rewrite Hc2, Hc1, app_assoc | by apply Forall_app]).
Qed.

Lemma emits_only_try_assign_finally {A B} (Q : event -> Prop)
    (first : M A) (rest : A -> M B) (cleanup : option A -> M unit) :
  emits_only Q first -> (forall a, emits_only Q (rest a)) ->
  (forall o, emits_only Q (cleanup o)) ->
  emits_only Q (try_assign_finally first rest cleanup).
Proof.
  intros Hf Hr Hc w. unfold try_assign_finally.
  destruct (Hf w) as (e1 & Hc1 & Q1).
  destruct (first w) as [[a | e] w1]; simpl in *.
  - destruct (emits_only_try_finally Q (rest a) (cleanup (Some a)) (Hr a) (Hc _) w1)
      as (e2 & Hc2 & Q2).
    exists (e1 ++ e2). split; [by rewrite Hc2, Hc1, app_assoc | by apply Forall_app].
  - destruct (emits_only_try_finally Q (@raise B e) (cleanup None)
                (emits_only_logs _ _ _ (logs_raise Q e)) (Hc _) w1)
      as (e2 & Hc2 & Q2).
    exists (e1 ++ e2). split; [by rewrite Hc2, Hc1, app_assoc | by apply Forall_app].
Qed.

Section OrchestratorFacts.

Variable urlparse_netloc : string -> option string.
Variable E : environment.

Lemma bot_run (c : bot_call) (w : world) :
  bot E c w =
  (match bot_fault E c with Some e => Raised e | None => Ok tt end,
   add_calls w [Bot c]).
Proof. unfold bot. run. by destruct (bot_fault E c). Qed.

Lemma bot_emits (Q : event -> Prop) (c : bot_call) :
  Q (Bot c) -> emits_only Q (bot E c).
Proof. intros H w. exists [Bot c]. rewrite bot_run. by repeat constructor. Qed.

Lemma delete_original_logs (msg : Message) :
  logs sends_nothing (delete_original E msg) (Ok tt).
Proof.
  unfold delete_original. destruct (chat msg) as [c |]; [| apply logs_ret].
  case_bool_decide; [| apply logs_ret].
  destruct (bot_fault E (delete_message (chat_id msg) (message_id msg))) eqn:Hf.
  - exists [Bot (delete_message (chat_id msg) (message_id msg));
            LogRecord "WARNING" "Couldn't delete message: %s"].
    split; [by repeat constructor |]. intros w.
    unfold try_except. rewrite bot_run, Hf. finish.
  - exists [Bot (delete_message (chat_id msg) (message_id msg))].
    split; [by repeat constructor |]. intros w.
    unfold try_except. by rewrite bot_run, Hf.
Qed.

Lemma signal_upload_logs (chat : Z) :
  logs sends_nothing (signal_upload E chat) (Ok tt).
Proof.
  exists [Bot (send_chat_action chat "upload_video")].
  split; [by repeat constructor |]. intros w.
  unfold signal_upload, try_except. rewrite bot_run.
  by destruct (bot_fault E _).
Qed.

Lemma send_by_reference_run (chat : Z) (v : pyval) (caption : string) (w : world) :
  send_by_reference E chat v caption w =
  match bot_fault E (send_video chat (ByReference v) caption) with
  | None => (Ok true, add_calls w [Bot (send_video chat (ByReference v) caption)])
  | Some _ =>
      (Ok false,
       add_calls w [Bot (send_video chat (ByReference v) caption);
                    LogRecord "WARNING" "Direct send failed, will try uploading: %s"])
  end.
Proof.
  unfold send_by_reference, try_except. rewrite bind_run, bot_run.
  destruct (bot_fault E _); [finish | done].
Qed.

Lemma os_remove_silent (path : string) (w : world) :
  calls (snd (os_remove E path w)) = calls w.
Proof.
  unfold os_remove. destruct (os_fault E _); [done |]. by destruct (fs w !! path).
Qed.

Lemma remove_quietly_emits (Q : event -> Prop) (path : option string) :
  emits_only Q (if opt_truthy path
                then try_except (os_remove E (default "" path)) (fun _ => mret tt)
                else mret tt).
Proof.
  destruct (opt_truthy path).
  - apply emits_only_try_except.
    + apply emits_only_silent, os_remove_silent.
    + intros e. apply (emits_only_logs _ _ _ (logs_ret Q tt)).
  - apply (emits_only_logs _ _ _ (logs_ret Q tt)).
Qed.

Lemma with_open_rb_emits {A} (Q : event -> Prop) (path : string)
    (body : list Byte.byte -> M A) :
  (forall data, emits_only Q (body data)) -> emits_only Q (with_open_rb E path body).
Proof.
  intros Hb w. unfold with_open_rb.
  destruct (os_fault E (sys_open path)); [exists []; by rewrite app_nil_r |].
  destruct (fs w !! path) as [data |]; [| exists []; by rewrite app_nil_r].
  assert (Hclose : emits_only Q (file_close path)) by by apply emits_only_silent.
  apply (emits_only_try_finally Q (body data) (file_close path) (Hb data) Hclose
           {| fs := fs w; handles := {[path]} ∪ handles w; calls := calls w |}).
Qed.

Lemma download_emits (Q : event -> Prop) (url : pyval) :
  (forall r, Q (HttpGet r)) -> emits_only Q (download_to_tempfile E url).
Proof.
  intros HQ w. rewrite download_run.
  destruct (os_fault E (sys_create (tmp_path E))); [exists []; by rewrite app_nil_r |].
  exists [HttpGet (media_request url)].
  destruct (transfer_failure E url); by repeat constructor.
Qed.

Lemma upload_fallback_emits (Q : event -> Prop) (chat : Z) (v : pyval) (caption : string) :
  (forall r, Q (HttpGet r)) ->
  (forall path data, Q (Bot (send_video chat (ByUpload path data) caption))) ->
  emits_only Q (upload_fallback E chat v caption).
Proof.
  intros Hget Hvideo. apply emits_only_try_assign_finally.
  - by apply download_emits.
  - intros path. apply with_open_rb_emits. intros data. by apply bot_emits.
  - apply remove_quietly_emits.
Qed.

(** The fallback when the download succeeds and the file opens: the video
    is uploaded; whatever comes of it, the removal of the file is tried. *)
Lemma upload_fallback_downloaded (chat : Z) (v : pyval) (caption : string) (w : world) :
  transfer_failure E v = None ->
  os_fault E (sys_open (tmp_path E)) = None ->
  upload_fallback E chat v caption w =
  (match bot_fault E (send_video chat (ByUpload (tmp_path E) (transferred E v)) caption) with
   | Some e => Raised e
   | None => Ok tt
   end,
   {| fs := match os_fault E (sys_unlink (tmp_path E)) with
            | None => delete (tmp_path E) (fs w)
            | Some _ => <[tmp_path E := transferred E v]> (fs w)
            end;
      handles := handles w ∖ {[tmp_path E]};
      calls := calls w ++ [HttpGet (media_request v);
                           Bot (send_video chat (ByUpload (tmp_path E) (transferred E v)) caption)] |}).
Proof.
  intros Hok Hopen. unfold upload_fallback, try_assign_finally.
  rewrite download_run, Hok.
  assert (os_fault E (sys_create (tmp_path E)) = None) as ->.
  { unfold transfer_failure in Hok. by destruct (os_fault E (sys_create _)). }
  unfold try_finally, with_open_rb. cbn [fs handles calls].
  rewrite Hopen, lookup_insert_eq. unfold try_finally. rewrite bot_run.
  unfold opt_truthy. rewrite tmp_path_truthy. cbn [default from_option id].
  unfold file_close, try_except, os_remove. cbn [fs handles calls snd fst add_calls].
  rewrite reopened_handle, <- app_assoc. cbn [app].
  destruct (os_fault E (sys_unlink (tmp_path E))).
  - by destruct (bot_fault E _).
  - rewrite lookup_insert_eq, delete_insert_eq. by destruct (bot_fault E _).
Qed.

(** Every call of a handling is an expected one. *)
Lemma handle_message_calls (update : Update) (msg : Message) :
  effective_message update = Some msg ->
  emits_only (expected_call msg) (handle_message urlparse_netloc E update).
Proof.
  intros Hmsg. unfold handle_message. rewrite Hmsg.
  assert (Hret : emits_only (expected_call msg) (mret tt))
    by apply (emits_only_logs _ _ _ (logs_ret _ tt)).
  destruct (negb (opt_truthy (text msg))); [done |].
  destruct (negb (opt_truthy (_extract_tiktok_url_from_text _ _))); [done |].
  apply emits_only_bind.
  { eapply emits_only_weaken; [apply sends_nothing_expected |].
    eapply emits_only_logs, delete_original_logs. }
  intros _. apply emits_only_bind.
  { eapply emits_only_weaken; [apply sends_nothing_expected |].
    eapply emits_only_logs, signal_upload_logs. }
  intros _. apply emits_only_bind.
  { eapply emits_only_weaken;
      [intros ev Hev; apply sends_nothing_expected, not_bot_sends_nothing, Hev |].
    eapply emits_only_logs, resolve_logs. }
  intros v. destruct (negb (truthy v)); [by apply bot_emits |].
  apply emits_only_bind.
  - intros w. rewrite send_by_reference_run.
    destruct (bot_fault E _); eexists; (split; [reflexivity |]); by repeat constructor.
  - intros [|]; [done |]. by apply upload_fallback_emits.
Qed.

(** A handling that finds no link does nothing. *)
Lemma handle_message_ignored (update : Update) (w : world) :
  (forall msg, effective_message update = Some msg ->
               _extract_tiktok_url_from_text urlparse_netloc (text msg) = None) ->
  handle_message urlparse_netloc E update w = (Ok tt, w).
Proof.
  intros H. unfold handle_message.
  destruct (effective_message update) as [msg |]; [| done].
  rewrite (H msg eq_refl). by destruct (negb (opt_truthy (text msg))).
Qed.

(** A handling that finds a link: up to the answer [v] of the resolver it
    has sent nothing, and it goes on as the answer decides. *)
Lemma handle_message_resolved (update : Update) (msg : Message) (url : string) (v : pyval) :
  effective_message update = Some msg ->
  _extract_tiktok_url_from_text urlparse_netloc (text msg) = Some url ->
  resolver_result E url = Ok v ->
  exists pre,
    Forall sends_nothing pre /\
    forall w,
      handle_message urlparse_netloc E update w =
      (if negb (truthy v) then bot E (send_message (chat_id msg) unresolved_notice)
       else
         sent ← send_by_reference E (chat_id msg) v
                  ("Send By : " +:+ _display_name_from_msg msg);
         if (sent : bool) then mret tt
         else upload_fallback E (chat_id msg) v
                ("Send By : " +:+ _display_name_from_msg msg))
        (add_calls w pre).
Proof.
  intros Hmsg Hurl Hres.
  destruct (extract_some_truthy _ _ _ Hurl) as [Htext Hu].
  destruct (delete_original_logs msg) as (e1 & Q1 & H1).
  destruct (signal_upload_logs (chat_id msg)) as (e2 & Q2 & H2).
  destruct (resolve_logs E url) as (e3 & Q3 & H3).
  exists (e1 ++ e2 ++ e3). split.
  { repeat apply Forall_app_2; try done.
    eapply Forall_impl; [done | apply not_bot_sends_nothing]. }
  intros w. unfold handle_message. rewrite Hmsg, Htext, Hurl. cbn [negb opt_truthy].
  rewrite Hu. cbn [negb default from_option id].
  rewrite bind_run, H1, bind_run, H2, bind_run, H3, Hres.
  by rewrite !add_calls_app.
Qed.

End OrchestratorFacts.

Lemma elem_of_sent_messages (evs : list event) (c : Z) (t : string) :
  (c, t) ∈ sent_messages evs <-> Bot (send_message c t) ∈ evs.
Proof.
  unfold sent_messages. rewrite list_elem_of_omap. split.
  - intros (ev & Hin & Hev). destruct ev as [[] | | |]; try done. by injection Hev as -> ->.
  - intros H. by exists (Bot (send_message c t)).
Qed.

Lemma elem_of_sent_videos (evs : list event) (c : Z) (v : video) (cap : string) :
  (c, v, cap) ∈ sent_videos evs <-> Bot (send_video c v cap) ∈ evs.
Proof.
  unfold sent_videos. rewrite list_elem_of_omap. split.
  - intros (ev & Hin & Hev). destruct ev as [[] | | |]; try done.
    by injection Hev as -> -> ->.
  - intros H. by exists (Bot (send_video c v cap)).
Qed.

(** ** The scenarios of the specification *)

(** The matches of [URL_RE]: a closing parenthesis and whitespace end a URL,
    the scheme is matched in any case, and a scheme without a body is no
    match. *)
Example finditer_sample :
  URL_RE_finditer "a (http://x.y/z) HTTPS://WWW.TikTok.COM:443/a?b httpx://c https:// end"
  = ["http://x.y/z"; "HTTPS://WWW.TikTok.COM:443/a?b"].
Proof. reflexivity. Qed.

(** Scenario A: a link in a direct chat, the resolver answers with an HD
    URL, the send by reference succeeds: nothing is deleted or downloaded,
    no notice is sent. *)
Example scenario_A :
  let E := scenario (json_reply 200 hd_body) (media_reply 200 two_chunks)
             no_bot_fault no_os_fault in
  handle_message netloc_of E (message_of shared_link "private") empty_world
  = (Ok tt,
     add_calls empty_world
       [Bot (send_chat_action 42 "upload_video");
        HttpGet (api_request E "https://vm.tiktok.com/ZMxyz/");
        ReadJson;
        Bot (send_video 42 (ByReference (PStr "https://cdn/x.mp4")) "Send By : @alice")]).
Proof. by vm_compute. Qed.

(** Scenario B: the same in a group, the send by reference raises: the
    message is deleted, the video is downloaded and uploaded, and the
    temporary file is gone afterwards. *)
Example scenario_B :
  let E := scenario (json_reply 200 hd_body) (media_reply 200 two_chunks)
             reference_refused no_os_fault in
  handle_message netloc_of E (message_of shared_link "group") empty_world
  = (Ok tt,
     add_calls empty_world
       [Bot (delete_message 42 7);
        Bot (send_chat_action 42 "upload_video");
        HttpGet (api_request E "https://vm.tiktok.com/ZMxyz/");
        ReadJson;
        Bot (send_video 42 (ByReference (PStr "https://cdn/x.mp4")) "Send By : @alice");
        LogRecord "WARNING" "Direct send failed, will try uploading: %s";
        HttpGet (media_request (PStr "https://cdn/x.mp4"));
        Bot (send_video 42
               (ByUpload "/tmp/tmpk3q9x_2a.mp4"
                  [Byte.x00; Byte.x00; Byte.x00; Byte.x18; Byte.x66; Byte.x74])
               "Send By : @alice")]).
Proof. by vm_compute. Qed.

(** * The claims *)

(** ** Link matcher *)





(** ** Identity formatter *)


(** ** Resolver client *)

(** C4.  The claim fails on a body whose ["data"] is a text: the status is
    200 and the body parses, so the [try] block is left without a
    [return]; [get] is then called on the text, outside the [try] block, and
    [AttributeError] leaves the resolver. *)
Theorem resolver_raises_on_text_data :
  let E := scenario (json_reply 200 text_data_body) (media_reply 200 two_chunks)
             no_bot_fault no_os_fault in
  resolve_tiktok_direct_url E "https://vm.tiktok.com/ZMxyz/" empty_world
  = (Raised AttributeError,
     add_calls empty_world
       [HttpGet (api_request E "https://vm.tiktok.com/ZMxyz/"); ReadJson]).
Proof.
  intros E.
  by apply (resolve_data_not_object E _ _ _ (PStr "not found")
              empty_world eq_refl eq_refl eq_refl).
Qed.

(** C5.  For an answer with status 200 whose body is an object with an
    object under ["data"], the fields [hdplay], [play] and [wmplay] are
    tried in this order and the first value that is not empty is returned:
    [hdplay] when it is not empty (whatever [play] is), [play] when only
    [hdplay] is empty, [wmplay] when both are; "no media found" when all
    three are empty or ["data"] is the empty object. *)
Theorem resolver_field_preference
    (E : environment) (url : string) (w : world) (r : response)
    (body d : gmap string pyval) :
  http_get E (api_request E url) = Ok r ->
  status r = 200%Z ->
  json r = Ok (PDict body) ->
  body !! "data" = Some (PDict d) ->
  let field := fun key => default PNone (d !! key) in
  let answer := fst (resolve_tiktok_direct_url E url w) in
  (truthy (field "hdplay") = true -> answer = Ok (field "hdplay")) /\
  (truthy (field "hdplay") = false -> truthy (field "play") = true ->
     answer = Ok (field "play")) /\
  (truthy (field "hdplay") = false -> truthy (field "play") = false ->
     truthy (field "wmplay") = true -> answer = Ok (field "wmplay")) /\
  (truthy (field "hdplay") = false -> truthy (field "play") = false ->
     truthy (field "wmplay") = false -> answer = Ok PNone) /\
  (d = ∅ -> answer = Ok PNone).
Proof.
  intros Hget Hs Hj Hd field answer. subst answer field.
  rewrite (resolve_data_object E url r body d w Hget Hs Hj Hd).
  cbn [fst first_nonempty].
  repeat split.
  - destruct (d !! "hdplay") as [v |]; [| done]. cbn. by intros ->.
  - destruct (d !! "hdplay") as [v |]; cbn; [intros -> |intros _];
      (destruct (d !! "play") as [v' |]; [| done]); cbn; by intros ->.
  - destruct (d !! "hdplay") as [v |]; cbn; [intros -> |intros _];
      (destruct (d !! "play") as [v' |]; cbn; [intros -> | intros _]);
      (destruct (d !! "wmplay") as [v'' |]; [| done]); cbn; by intros ->.
  - destruct (d !! "hdplay") as [v |]; cbn; [intros -> |intros _];
      (destruct (d !! "play") as [v' |]; cbn; [intros -> | intros _]);
      (destruct (d !! "wmplay") as [v'' |]; [| done]); cbn; by intros ->.
  - intros ->. by rewrite !lookup_empty.
Qed.

Lemma resolver_field_preference_witness :
  let E := scenario
             (json_reply 200
                (PDict {[ "data" := PDict {[ "hdplay" := PStr "";
                                             "play" := PStr "https://cdn/sd.mp4";
                                             "wmplay" := PStr "https://cdn/wm.mp4" ]} ]}))
             (media_reply 200 two_chunks) no_bot_fault no_os_fault in
  fst (resolve_tiktok_direct_url E "https://vm.tiktok.com/ZMxyz/" empty_world)
  = Ok (PStr "https://cdn/sd.mp4").
Proof.
  intros E.
  pose proof (resolver_field_preference E "https://vm.tiktok.com/ZMxyz/" empty_world
                _ _ _ eq_refl eq_refl eq_refl eq_refl) as (_ & Hplay & _).
  exact (Hplay eq_refl eq_refl).
Defined.

(** C10.  The resolver takes the status 200 alone for a success: with any
    other status, 201 and 204 included, it logs a warning and returns "no
    media found"; the body is not read. *)
Theorem resolver_requires_status_200
    (E : environment) (url : string) (w : world) (r : response) :
  http_get E (api_request E url) = Ok r ->
  status r <> 200%Z ->
  let made := [HttpGet (api_request E url); LogRecord "WARNING" "API status %s"] in
  resolve_tiktok_direct_url E url w = (Ok PNone, add_calls w made) /\
  ReadJson ∉ made.
Proof.
  intros Hget Hs made. split; [by apply (resolve_bad_status E url r) |].
  subst made. rewrite !not_elem_of_cons. repeat split; try done. apply not_elem_of_nil.
Qed.

Lemma resolver_requires_status_200_witness :
  let E := scenario (json_reply 204 hd_body) (media_reply 200 two_chunks)
             no_bot_fault no_os_fault in
  fst (resolve_tiktok_direct_url E "https://vm.tiktok.com/ZMxyz/" empty_world) = Ok PNone.
Proof.
  intros E.
  pose proof (resolver_requires_status_200 E "https://vm.tiktok.com/ZMxyz/" empty_world
                {| status := 204; json := Ok hd_body; content := Eof |} eq_refl) as H.
  destruct H as [H _]; [done |]. by rewrite H.
Defined.

(** ** Transfer manager *)




(** ** Delivery orchestrator *)

(** C2, as it is stated, fails on the text: the notice that is sent has the
    apostrophe U+2019, the text of the claim the apostrophe U+0027. *)
Lemma notice_has_another_apostrophe :
  let E := scenario (json_reply 200 empty_data_body) (media_reply 200 two_chunks)
             no_bot_fault no_os_fault in
  let out := handle_message netloc_of E (message_of shared_link "private") empty_world in
  sent_messages (calls (snd out)) = [(42%Z, unresolved_notice)] /\
  unresolved_notice <> "Couldn't resolve that TikTok link. Try a different one?".
Proof. by vm_compute. Qed.

(** C2, amended.  Whatever happens, a handling sends no message but the
    notice [unresolved_notice], to the chat of the message.  When the
    message is matched and the resolver returns nothing, the handling sends
    this notice once, sends no video, and ends with the send: it returns,
    or raises what the send raised. *)
Theorem unresolved_link_notice
    (urlparse_netloc : string -> option string) (E : environment)
    (update : Update) (msg : Message) (w : world) :
  effective_message update = Some msg ->
  let out := handle_message urlparse_netloc E update w in
  exists evs,
    calls (snd out) = calls w ++ evs /\
    (forall c t, (c, t) ∈ sent_messages evs -> c = chat_id msg /\ t = unresolved_notice) /\
    (forall url v,
       _extract_tiktok_url_from_text urlparse_netloc (text msg) = Some url ->
       resolver_result E url = Ok v ->
       truthy v = false ->
       sent_messages evs = [(chat_id msg, unresolved_notice)] /\
       sent_videos evs = [] /\
       fst out = match bot_fault E (send_message (chat_id msg) unresolved_notice) with
                 | Some e => Raised e
                 | None => Ok tt
                 end).
Proof.
  intros Hmsg out. subst out.
  destruct (handle_message_calls urlparse_netloc E update msg Hmsg w)
    as (evs & Hcalls & Hall).
  exists evs. split; [done |]. split.
  - intros c t Hin%elem_of_sent_messages.
    rewrite Forall_forall in Hall. exact (Hall _ Hin).
  - intros url v Hurl Hres Hv.
    destruct (handle_message_resolved urlparse_netloc E update msg url v Hmsg Hurl Hres)
      as (pre & Hpre & Hrun).
    rewrite Hrun, Hv in Hcalls |- *. cbn [negb] in Hcalls |- *.
    rewrite bot_run in Hcalls |- *. cbn [fst snd] in Hcalls |- *.
    rewrite add_calls_app in Hcalls. cbn [add_calls calls] in Hcalls.
    apply app_inv_head in Hcalls as <-.
    destruct (sends_nothing_messages pre Hpre) as [Hm Hvid].
    by rewrite sent_messages_app, sent_videos_app, Hm, Hvid.
Qed.

Lemma unresolved_link_notice_witness :
  let E := scenario (json_reply 200 empty_data_body) (media_reply 200 two_chunks)
             no_bot_fault no_os_fault in
  let out := handle_message netloc_of E (message_of shared_link "group") empty_world in
  exists evs,
    calls (snd out) = evs /\
    sent_messages evs = [(42%Z, unresolved_notice)] /\
    sent_videos evs = [] /\
    fst out = Ok tt.
Proof.
  intros E out.
  destruct (unresolved_link_notice netloc_of E (message_of shared_link "group")
              _ empty_world eq_refl) as (evs & Hcalls & _ & Hone).
  exists evs. split; [exact Hcalls |].
  exact (Hone "https://vm.tiktok.com/ZMxyz/" PNone eq_refl eq_refl eq_refl).
Defined.

(** C8, as it is stated, fails on the words of the caption: the video goes
    out under ["Send By : @alice"], not under ["Sent by: @alice"]. *)
Lemma caption_reads_send_by :
  let E := scenario (json_reply 200 hd_body) (media_reply 200 two_chunks)
             no_bot_fault no_os_fault in
  let out := handle_message netloc_of E (message_of shared_link "private") empty_world in
  sent_videos (calls (snd out))
  = [(42%Z, ByReference (PStr "https://cdn/x.mp4"), "Send By : @alice")] /\
  "Send By : @alice" <> "Sent by: @alice".
Proof. by vm_compute. Qed.

(** C8, amended.  Every video a handling sends, by reference or as an
    upload, goes to the chat of the message under the caption
    ["Send By : "] followed by the value of the identity formatter, as it
    is; that value is not empty. *)
Theorem caption_names_the_sender
    (urlparse_netloc : string -> option string) (E : environment)
    (update : Update) (msg : Message) (w : world) :
  effective_message update = Some msg ->
  exists evs,
    calls (snd (handle_message urlparse_netloc E update w)) = calls w ++ evs /\
    forall c v caption,
      (c, v, caption) ∈ sent_videos evs ->
      c = chat_id msg /\
      caption = "Send By : " +:+ _display_name_from_msg msg /\
      _display_name_from_msg msg <> "".
Proof.
  intros Hmsg.
  destruct (handle_message_calls urlparse_netloc E update msg Hmsg w)
    as (evs & Hcalls & Hall).
  exists evs. split; [done |].
  intros c v caption Hin%elem_of_sent_videos.
  rewrite Forall_forall in Hall. destruct (Hall _ Hin) as [-> ->].
  repeat split. apply display_name_nonempty.
Qed.

Lemma caption_names_the_sender_witness :
  let E := scenario (json_reply 200 hd_body) (media_reply 200 two_chunks)
             reference_refused no_os_fault in
  let out := handle_message netloc_of E (message_of shared_link "supergroup") empty_world in
  Forall (fun sent => snd sent = "Send By : @alice") (sent_videos (calls (snd out))).
Proof.
  intros E out. apply Forall_forall. intros [[c v] caption] Hin.
  destruct (caption_names_the_sender netloc_of E (message_of shared_link "supergroup")
              _ empty_world eq_refl) as (evs & Hcalls & Hall).
  change (calls empty_world ++ evs) with evs in Hcalls. subst out. rewrite Hcalls in Hin.
  by destruct (Hall c v caption Hin) as (_ & -> & _).
Defined.




(** * Further properties *)

(** ** Link matcher *)

Lemma occur_in_order_elem (ms : list string) (t m : string) :
  occur_in_order ms t -> m ∈ ms -> exists a b, t = a +:+ m +:+ b.
Proof.
  induction 1 as [t | gap m0 rest ms Hocc IH]; intros Hin.
  - by apply elem_of_nil in Hin.
  - apply elem_of_cons in Hin as [-> | Hin]; [by exists gap, rest |].
    destruct (IH Hin) as (a & b & ->).
    exists (gap +:+ m0 +:+ a), b. by rewrite !str_app_assoc.
Qed.

Lemma first_tiktok_link_accepts (urlparse_netloc : string -> option string)
    (ms : list string) (u : string) :
  first_tiktok_link urlparse_netloc ms = Some u ->
  _is_tiktok_link urlparse_netloc u = true.
Proof.
  induction ms as [|m ms IH]; simpl; [done |].
  destruct (_is_tiktok_link urlparse_netloc m) eqn:Hm; [| done].
  by intros [= <-].
Qed.

(** X1.  What the matcher returns is one of the matches of [URL_RE] in the
    text, copied as it stands there, not empty, and its host is in the
    allow-list: the matcher never returns a URL of another host, and never
    returns anything for an absent text. *)
Theorem extract_is_sound
    (urlparse_netloc : string -> option string) (text : option string) (u : string) :
  _extract_tiktok_url_from_text urlparse_netloc text = Some u ->
  exists t,
    text = Some t /\
    u ∈ URL_RE_finditer t /\
    host_allowed urlparse_netloc u /\
    u <> "" /\
    exists before after, t = before +:+ u +:+ after.
Proof.
  destruct text as [t |]; [| done]. cbn [_extract_tiktok_url_from_text].
  destruct (negb (str_truthy t)); [done |]. intros Hfirst.
  pose proof (first_tiktok_link_elem _ _ _ Hfirst) as Hin.
  exists t. repeat split; [done | | |].
  - by eapply is_tiktok_link_iff, first_tiktok_link_accepts.
  - by eapply finditer_from_nonempty.
  - by eapply occur_in_order_elem; [apply finditer_in_order |].
Qed.

Lemma extract_is_sound_witness :
  host_allowed netloc_of "https://vt.tiktok.com/ZSabc/".
Proof.
  destruct (extract_is_sound netloc_of
              (Some "(https://vt.tiktok.com/ZSabc/) via http://example.com")
              "https://vt.tiktok.com/ZSabc/" eq_refl)
    as (t & _ & _ & Hallowed & _).
  exact Hallowed.
Defined.

Lemma split_head_no_match (ch : ascii) (s : string) :
  str_contains ch s = false -> split_head ch s = s.
Proof.
  induction s as [|c s IH]; simpl; [done |].
  intros [Hc Hs]%orb_false_elim. rewrite Hc. by rewrite IH.
Qed.

Lemma allowed_host_no_at (h : string) :
  h ∈ _ALLOWED_TT_HOSTS -> str_contains "@" h = false.
Proof.
  intros H. apply allowed_hosts_cases in H.
  destruct H as [-> | [-> | [-> | [-> | ->]]]]; reflexivity.
Qed.

(** X2.  Only the authority up to its first colon decides whether a URL is
    a link of the host, in lower case and by equality with one of the five
    names.  What follows the first colon is not looked at, be it a port or
    anything else, so that an authority [tiktok.com:x@other.host] is
    accepted; an authority with a user name before the host, as
    [user@tiktok.com], is refused. *)
Theorem is_tiktok_link_by_prefix (urlparse_netloc : string -> option string) (u : string) :
  _is_tiktok_link urlparse_netloc u
  = match urlparse_netloc u with
    | Some netloc => bool_decide (split_head ":" (lower netloc) ∈ _ALLOWED_TT_HOSTS)
    | None => false
    end /\
  (forall netloc h rest,
     urlparse_netloc u = Some netloc -> h ∈ _ALLOWED_TT_HOSTS ->
     lower netloc = h +:+ ":" +:+ rest ->
     _is_tiktok_link urlparse_netloc u = true) /\
  (forall netloc,
     urlparse_netloc u = Some netloc ->
     str_contains "@" (split_head ":" (lower netloc)) = true ->
     _is_tiktok_link urlparse_netloc u = false).
Proof.
  assert (Heq : _is_tiktok_link urlparse_netloc u
                = match urlparse_netloc u with
                  | Some netloc =>
                      bool_decide (split_head ":" (lower netloc) ∈ _ALLOWED_TT_HOSTS)
                  | None => false
                  end).
  { unfold _is_tiktok_link. destruct (urlparse_netloc u) as [netloc |]; [| done].
    destruct (str_contains ":" (lower netloc)) eqn:Hc; [done |].
    by rewrite split_head_no_match. }
  split; [exact Heq |]. split.
  - intros netloc h rest Hn Hh Hlow. apply is_tiktok_link_iff.
    exists netloc, h. repeat split; [done | done |]. right. by exists rest.
  - intros netloc Hn Hat. rewrite Heq, Hn. apply bool_decide_eq_false_2.
    intros Hin%allowed_host_no_at. congruence.
Qed.

Lemma str_contains_app (x : ascii) (a b : string) :
  str_contains x (a +:+ b) = str_contains x a || str_contains x b.
Proof.
  induction a as [|c a IH]; [done |].
  rewrite str_app_cons. simpl. by rewrite IH, orb_assoc.
Qed.

(** The characters that end a URL: ASCII whitespace and the closing
    parenthesis.  They are below every character of the scheme. *)
Lemma delimiter_small (x : ascii) :
  ascii_space x = true \/ x = ")"%char -> N_of_ascii x <= 41.
Proof.
  intros [H | ->]; [| by vm_compute].
  unfold ascii_space in H. cbv zeta in H.
  apply orb_true_iff in H as [H | H]; apply andb_true_iff in H as [_ H];
    apply N.leb_le in H; lia.
Qed.

Lemma lower_char_small (x : ascii) : N_of_ascii x <= 41 -> lower_char x = x.
Proof.
  intros H. unfold lower_char. cbv zeta.
  destruct (N.leb_spec 65 (N_of_ascii x)); [lia | done].
Qed.

Lemma lit_ci_chars (pat s m r : string) (x : ascii) :
  lit_ci pat s = Some (m, r) ->
  lower_char x = x ->
  str_contains x pat = false ->
  str_contains x m = false.
Proof.
  intros Hlit Hx. revert s m r Hlit.
  induction pat as [|p pat IH]; intros s m r; simpl.
  - by intros [= <- <-].
  - destruct s as [|c s]; [done |].
    destruct (Ascii.eqb_spec (lower_char c) p) as [Hp | Hp]; [| done].
    destruct (lit_ci pat s) as [[m' r'] |] eqn:Hrec; [| done].
    intros [= <- <-] [Hpx Hpat]%orb_false_elim. simpl.
    rewrite (IH _ _ _ Hrec Hpat), orb_false_r.
    destruct (Ascii.eqb_spec c x) as [-> | Hc]; [| done].
    rewrite Hx in Hp. subst p. by rewrite Ascii.eqb_refl in Hpx.
Qed.

Lemma small_absent (x : ascii) (pat : string) :
  N_of_ascii x <= 41 ->
  forallb (fun p => 41 <? N_of_ascii p) (list_ascii_of_string pat) = true ->
  str_contains x pat = false.
Proof.
  intros Hx. induction pat as [|p pat IH]; [done |]. cbn [list_ascii_of_string forallb str_contains].
  intros [Hp%N.ltb_lt Hpat]%andb_true_iff. rewrite (IH Hpat), orb_false_r.
  destruct (Ascii.eqb_spec p x) as [-> | _]; [lia | done].
Qed.

Lemma lit_s_chars (s m r : string) (x : ascii) :
  lit_s s = Some (m, r) -> N_of_ascii x <= 41 -> str_contains x m = false.
Proof.
  intros Hs Hx. unfold lit_s in Hs. destruct s as [|c s]; [done |].
  destruct (Ascii.eqb_spec (lower_char c) "s") as [Hc | Hc].
  - injection Hs as <- <-. simpl. rewrite orb_false_r.
    destruct (Ascii.eqb_spec c x) as [-> | _]; [| done].
    rewrite lower_char_small in Hc by done. subst x.
      exfalso. revert Hx. vm_compute. intros Hx. by apply Hx.
  - destruct s as [|d s]; [done |].
    destruct (N.eqb_spec (N_of_ascii c) 197) as [H1 | H1]; [| done].
    destruct (N.eqb_spec (N_of_ascii d) 191) as [H2 | H2]; [| done].
    injection Hs as <- <-. simpl.
    destruct (Ascii.eqb_spec c x) as [-> | _]; [lia |].
    destruct (Ascii.eqb_spec d x) as [-> | _]; [lia | done].
Qed.

Lemma space_at_ascii (c : ascii) (r : string) :
  ascii_space c = true -> space_at (String c r) = true.
Proof. unfold ascii_space, space_at. cbv zeta. by intros ->. Qed.

Lemma url_body_chars (s m r : string) (x : ascii) :
  url_body s = (m, r) ->
  ascii_space x = true \/ x = ")"%char ->
  str_contains x m = false.
Proof.
  intros Hbody Hx. revert m r Hbody. induction s as [|c s IH]; intros m r.
  - by intros [= <- <-].
  - cbn [url_body].
    destruct (space_at (String c s) || Ascii.eqb c ")") eqn:Hend.
    + by intros [= <- <-].
    + destruct (url_body s) as [m' r'] eqn:Hrec. intros [= <- <-]. simpl.
      rewrite (IH _ _ eq_refl), orb_false_r.
      apply orb_false_elim in Hend as [Hsp Hpar].
      destruct (Ascii.eqb_spec c x) as [-> | _]; [| done].
      destruct Hx as [Hx | ->]; [| done].
      by rewrite space_at_ascii in Hsp.
Qed.

Lemma match_tail_chars (pre s m r : string) (x : ascii) :
  match_tail pre s = Some (m, r) ->
  ascii_space x = true \/ x = ")"%char ->
  str_contains x pre = false ->
  str_contains x m = false.
Proof.
  unfold match_tail. intros Hm Hx Hpre.
  pose proof (delimiter_small x Hx) as Hsmall.
  destruct (lit_ci "://" s) as [[m1 r1] |] eqn:Hlit; [| done].
  destruct (url_body r1) as [b rest] eqn:Hbody.
  destruct b as [|c b]; [done |]. injection Hm as <- <-.
  rewrite !str_contains_app, Hpre, (url_body_chars _ _ _ _ Hbody Hx).
  rewrite (lit_ci_chars _ _ _ _ x Hlit); [done | by apply lower_char_small |].
  by apply small_absent.
Qed.

Lemma lit_ci_app (pat s m r x : string) :
  lit_ci pat s = Some (m, r) -> lit_ci pat (m +:+ x) = Some (m, x).
Proof.
  revert s m r. induction pat as [|p pat IH]; intros s m r; simpl.
  - by intros [= <- <-].
  - destruct s as [|c s]; [done |].
    destruct (Ascii.eqb (lower_char c) p) eqn:Hc; [| done].
    destruct (lit_ci pat s) as [[m' r'] |] eqn:Hrec; [| done].
    intros [= <- <-]. rewrite str_app_cons, Hc. by rewrite (IH _ _ _ Hrec).
Qed.

Lemma URL_RE_match_shape (s m r : string) (x : ascii) :
  URL_RE_match s = Some (m, r) ->
  (ascii_space x = true \/ x = ")"%char -> str_contains x m = false) /\
  exists scheme rest, lit_ci "http" m = Some (scheme, rest).
Proof.
  unfold URL_RE_match.
  destruct (lit_ci "http" s) as [[m0 r0] |] eqn:H0; [| done].
  assert (Hm0 : ascii_space x = true \/ x = ")"%char -> str_contains x m0 = false).
  { intros Hx. pose proof (delimiter_small x Hx) as Hsmall.
    apply (lit_ci_chars _ _ _ _ x H0); [by apply lower_char_small |].
    by apply small_absent. }
  assert (Hplain : match_tail m0 r0 = Some (m, r) ->
            (ascii_space x = true \/ x = ")"%char -> str_contains x m = false) /\
            exists scheme rest, lit_ci "http" m = Some (scheme, rest)).
  { intros Ht. split.
    - intros Hx. by eapply match_tail_chars; [| | apply Hm0].
    - apply match_tail_split in Ht as [_ [y ->]]. exists m0, y.
      by eapply lit_ci_app. }
  destruct (lit_s r0) as [[ms r1] |] eqn:Hs; [| done].
  destruct (match_tail (m0 +:+ ms) r1) as [found |] eqn:Ht; [| done].
  intros [= ->]. split.
  - intros Hx. eapply match_tail_chars; [done | done |].
    rewrite str_contains_app, (Hm0 Hx).
    by rewrite (lit_s_chars _ _ _ x Hs (delimiter_small x Hx)).
  - apply match_tail_split in Ht as [_ [y ->]]. exists m0, (ms +:+ y).
    rewrite str_app_assoc. by eapply lit_ci_app.
Qed.

Lemma finditer_from_match (skip : nat) (s m : string) :
  m ∈ finditer_from skip s -> exists s' r, URL_RE_match s' = Some (m, r).
Proof.
  revert skip. induction s as [|c s IH]; intros skip; simpl.
  - by intros ?%elem_of_nil.
  - destruct skip as [|k]; [| apply IH].
    destruct (URL_RE_match (String c s)) as [[m' r] |] eqn:Hm; [| apply IH].
    intros [-> | Hin]%elem_of_cons; [by eauto | by eapply IH].
Qed.

(** X3.  A match of [URL_RE] holds no ASCII whitespace and no closing
    parenthesis, and begins with the letters of [http] in either case: the
    URL the matcher hands on is one token. *)
Theorem url_match_is_one_token (text m : string) :
  m ∈ URL_RE_finditer text ->
  (forall x, ascii_space x = true \/ x = ")"%char -> str_contains x m = false) /\
  exists scheme rest, lit_ci "http" m = Some (scheme, rest) /\ m = scheme +:+ rest.
Proof.
  intros (s' & r & Hm)%finditer_from_match. split.
  - intros x. by apply (URL_RE_match_shape s' m r x).
  - destruct (URL_RE_match_shape s' m r " " Hm) as [_ (scheme & rest & Hlit)].
    exists scheme, rest. split; [done |]. by eapply lit_ci_split.
Qed.

Lemma url_match_is_one_token_witness :
  str_contains " " "HttpS://vm.tiktok.com/ZMxyz/" = false.
Proof.
  assert (Hin : "HttpS://vm.tiktok.com/ZMxyz/"
                ∈ URL_RE_finditer "look: HttpS://vm.tiktok.com/ZMxyz/ (new)").
  { vm_compute. left. }
  destruct (url_match_is_one_token _ _ Hin) as [Hclean _].
  apply Hclean. by left.
Defined.

(** ** Resolver client *)

Lemma first_nonempty_found (d : gmap string pyval) (keys : list string) :
  first_nonempty d keys = PNone \/
  (truthy (first_nonempty d keys) = true /\
   exists key, key ∈ keys /\ d !! key = Some (first_nonempty d keys)).
Proof.
  induction keys as [|key keys IH]; [by left |]. cbn [first_nonempty].
  assert (Hrest : first_nonempty d keys = PNone \/
            (truthy (first_nonempty d keys) = true /\
             exists key', key' ∈ key :: keys /\ d !! key' = Some (first_nonempty d keys))).
  { destruct IH as [IH | (Ht & key' & Hin & Hk)]; [by left | right].
    split; [done |]. exists key'. split; [by right | done]. }
  destruct (d !! key) as [v |] eqn:Hv; [| done].
  destruct (truthy v) eqn:Ht; [| done].
  right. split; [done |]. exists key. split; [by left | done].
Qed.

(** What the resolver does with a decoded body: one of three outcomes. *)
Lemma resolve_decoded (E : environment) (url : string) (r : response) (data : pyval) :
  http_get E (api_request E url) = Ok r ->
  status r = 200%Z ->
  json r = Ok data ->
  (misshapen data /\
   forall w, resolve_tiktok_direct_url E url w =
             (Raised AttributeError, add_calls w [HttpGet (api_request E url); ReadJson])) \/
  (~ misshapen data /\
   (truthy data = false \/
    exists body, data = PDict body /\ truthy (default PNone (body !! "data")) = false) /\
   forall w, resolve_tiktok_direct_url E url w =
             (Ok PNone, add_calls w [HttpGet (api_request E url); ReadJson])) \/
  (~ misshapen data /\
   exists body d, data = PDict body /\ body !! "data" = Some (PDict d) /\
     truthy (PDict d) = true /\
     forall w, resolve_tiktok_direct_url E url w =
               (Ok (first_nonempty d ["hdplay"; "play"; "wmplay"]),
                add_calls w [HttpGet (api_request E url); ReadJson])).
Proof.
  intros Hget Hs Hj.
  assert (Hempty : forall w,
            (d ← py_get (PDict ∅) "data";
             probe (py_or d (PDict ∅)) ["hdplay"; "play"; "wmplay"])
              (add_calls w [HttpGet (api_request E url); ReadJson])
            = (Ok PNone, add_calls w [HttpGet (api_request E url); ReadJson])).
  { intros w. rewrite bind_run, py_get_run. by rewrite lookup_empty. }
  destruct (truthy data) eqn:Ht.
  - destruct (is_dict data) eqn:Hdict.
    + destruct data as [| | | | | |body]; try done.
      destruct (body !! "data") as [v |] eqn:Hv.
      * destruct (truthy v) eqn:Htv.
        -- destruct (is_dict v) eqn:Hvd.
           ++ destruct v as [| | | | | |d]; try done.
              right. right. split.
              ** intros [_ [? | (body' & v' & [= <-] & Hv' & _ & Hnd)]]; [done |].
                 rewrite Hv in Hv'. by injection Hv' as <-.
              ** exists body, d. repeat split; try done.
                 intros w. by apply (resolve_data_object E url r body d).
           ++ left. split.
              ** split; [done | right]. by exists body, v.
              ** intros w. apply (resolve_data_not_object E url r body v); try done.
                 by intros d ->.
        -- right. left. split; [| split].
           ++ intros [_ [? | (body' & v' & [= <-] & Hv' & Htv' & _)]]; [done |].
              rewrite Hv in Hv'. injection Hv' as <-. congruence.
           ++ right. exists body. by rewrite Hv.
           ++ intros w. rewrite (resolve_parsed E url r _ w Hget Hs Hj).
              rewrite bind_run, py_or_dict, py_get_run, Hv.
              change (default PNone (Some v)) with v.
              replace (py_or v (PDict ∅)) with (PDict (∅ : gmap string pyval))
                by (unfold py_or; by rewrite Htv).
              apply probe_dict.
      * right. left. split; [| split].
        -- intros [_ [? | (body' & v' & [= <-] & Hv' & _)]]; [done |].
           by rewrite Hv in Hv'.
        -- right. exists body. by rewrite Hv.
        -- intros w. rewrite (resolve_parsed E url r _ w Hget Hs Hj).
           rewrite bind_run, py_or_dict, py_get_run, Hv. apply probe_dict.
    + left. split; [by split; [| left] |].
      intros w. apply (resolve_not_object E url r data); try done.
      by intros d ->.
  - right. left. split; [| split].
    + intros [? _]. congruence.
    + by left.
    + intros w. rewrite (resolve_parsed E url r _ w Hget Hs Hj).
      replace (py_or data (PDict ∅)) with (PDict (∅ : gmap string pyval))
        by (unfold py_or; by rewrite Ht).
      apply Hempty.
Qed.

(** X4.  The resolver raises exactly when the service answers with status
    200 and a body that decodes to a value on which [get] is missing: a
    non-empty value that is no [dict], or a [dict] whose ["data"] is such a
    value.  The exception is then [AttributeError]; every other failure is
    absorbed. *)
Theorem resolver_raises_iff_misshapen (E : environment) (url : string) (w : world) (e : exn) :
  fst (resolve_tiktok_direct_url E url w) = Raised e <->
  e = AttributeError /\
  exists r data,
    http_get E (api_request E url) = Ok r /\ status r = 200%Z /\
    json r = Ok data /\ misshapen data.
Proof.
  destruct (http_get E (api_request E url)) as [r | e'] eqn:Hget.
  - destruct (Z.eq_dec (status r) 200%Z) as [Hs | Hs].
    + destruct (json r) as [data | e'] eqn:Hj.
      * destruct (resolve_decoded E url r data Hget Hs Hj)
          as [[Hbad Hrun] | [(Hgood & _ & Hrun) | (Hgood & body & d & _ & _ & _ & Hrun)]];
          rewrite Hrun; cbn [fst]; split.
        -- intros [= <-]. split; [done |]. by exists r, data.
        -- by intros [-> _].
        -- done.
        -- intros (_ & r' & data' & [= <-] & _ & Hj' & Hbad).
           rewrite Hj in Hj'. injection Hj' as <-. by destruct Hgood.
        -- done.
        -- intros (_ & r' & data' & [= <-] & _ & Hj' & Hbad).
           rewrite Hj in Hj'. injection Hj' as <-. by destruct Hgood.
      * rewrite (resolve_parse_failure E url r e' w Hget Hs Hj). cbn [fst]. split; [done |].
        intros (_ & r' & data' & [= <-] & _ & Hj' & _). by rewrite Hj in Hj'.
    + rewrite (resolve_bad_status E url r w Hget Hs). cbn [fst]. split; [done |].
      by intros (_ & r' & data' & [= <-] & Hs' & _).
  - rewrite (resolve_transport_failure E url e' w Hget). cbn [fst]. split; [done |].
    by intros (_ & r' & data' & [=] & _).
Qed.

(** X5.  What the resolver returns is [None] or a non-empty value that the
    decoded body holds under ["data"] in one of the fields [hdplay], [play],
    [wmplay]: it never returns an empty string or another empty value, so
    that the test [if not direct_url] of the caller fails for [None] only;
    and the only exception it lets through is [AttributeError]. *)
Theorem resolver_answer_is_none_or_a_field (E : environment) (url : string) (w : world) :
  match fst (resolve_tiktok_direct_url E url w) with
  | Ok v =>
      v = PNone \/
      (truthy v = true /\
       exists r body d key,
         http_get E (api_request E url) = Ok r /\ status r = 200%Z /\
         json r = Ok (PDict body) /\ body !! "data" = Some (PDict d) /\
         key ∈ ["hdplay"; "play"; "wmplay"] /\ d !! key = Some v)
  | Raised e => e = AttributeError
  end.
Proof.
  destruct (http_get E (api_request E url)) as [r | e'] eqn:Hget.
  - destruct (Z.eq_dec (status r) 200%Z) as [Hs | Hs].
    + destruct (json r) as [data | e'] eqn:Hj.
      * destruct (resolve_decoded E url r data Hget Hs Hj)
          as [[Hbad Hrun] | [(Hgood & _ & Hrun) | (Hgood & body & d & -> & Hd & _ & Hrun)]];
          rewrite Hrun; cbn [fst]; [done | by left |].
        destruct (first_nonempty_found d ["hdplay"; "play"; "wmplay"])
          as [Hnone | (Ht & key & Hin & Hk)]; [by left | right].
        split; [done |]. by exists r, body, d, key.
      * rewrite (resolve_parse_failure E url r e' w Hget Hs Hj). by left.
    + rewrite (resolve_bad_status E url r w Hget Hs). by left.
  - rewrite (resolve_transport_failure E url e' w Hget). by left.
Qed.

(** X6.  A failure of the transport, and a failure to decode the body of
    an answer with status 200, are absorbed: the resolver returns [None],
    the failure is logged as an error, and no file is touched. *)
Theorem resolver_absorbs_failures
    (E : environment) (url : string) (w : world) (e : exn) :
  http_get E (api_request E url) = Raised e \/
  (exists r, http_get E (api_request E url) = Ok r /\ status r = 200%Z /\
             json r = Raised e) ->
  let out := resolve_tiktok_direct_url E url w in
  fst out = Ok PNone /\
  fs (snd out) = fs w /\ handles (snd out) = handles w /\
  exists made,
    calls (snd out) = calls w ++ made ++ [LogRecord "ERROR" "Resolver error: %s"] /\
    Forall not_bot made.
Proof.
  intros [Hget | (r & Hget & Hs & Hj)] out; subst out.
  - rewrite (resolve_transport_failure E url e w Hget). repeat split.
    exists [HttpGet (api_request E url)]. split; [done |]. by repeat constructor.
  - rewrite (resolve_parse_failure E url r e w Hget Hs Hj). repeat split.
    exists [HttpGet (api_request E url); ReadJson]. split; [done |]. by repeat constructor.
Qed.

Lemma resolver_absorbs_failures_witness :
  let E := scenario (Raised (OtherError "ClientConnectorError"))
             (media_reply 200 two_chunks) no_bot_fault no_os_fault in
  fst (resolve_tiktok_direct_url E "https://vm.tiktok.com/ZMxyz/" empty_world) = Ok PNone.
Proof.
  intros E.
  apply (resolver_absorbs_failures E "https://vm.tiktok.com/ZMxyz/" empty_world
           (OtherError "ClientConnectorError")).
  by left.
Defined.

(** X7.  An answer with status 200 whose body decodes to an empty value
    ([null], [false], [0], an empty string, list or object), or to an object
    that has nothing, or an empty value, under ["data"], is "no media
    found": the resolver returns [None] and logs nothing. *)
Theorem resolver_none_without_data
    (E : environment) (url : string) (w : world) (r : response) (data : pyval) :
  http_get E (api_request E url) = Ok r ->
  status r = 200%Z ->
  json r = Ok data ->
  truthy data = false \/
  (exists body, data = PDict body /\ truthy (default PNone (body !! "data")) = false) ->
  resolve_tiktok_direct_url E url w =
  (Ok PNone, add_calls w [HttpGet (api_request E url); ReadJson]).
Proof.
  intros Hget Hs Hj Hdata.
  destruct (resolve_decoded E url r data Hget Hs Hj)
    as [[Hbad Hrun] | [(Hgood & _ & Hrun) | (Hgood & body & d & -> & Hd & Ht & Hrun)]];
    [| done |].
  - destruct Hbad as [Ht [Hnd | (body & v & -> & Hv & Htv & _)]];
      destruct Hdata as [Hf | (body' & Hb & Hf)]; try congruence.
    + subst data. done.
    + injection Hb as <-. rewrite Hv in Hf. simpl in Hf. congruence.
  - destruct Hdata as [Hf | (body' & [= <-] & Hf)].
    + assert (Hb : truthy (PDict body) = true).
      { simpl. destruct (bool_decide_reflect (body = ∅)) as [-> |]; [| done].
        by rewrite lookup_empty in Hd. }
      congruence.
    + rewrite Hd in Hf. simpl in Hf. simpl in Ht. congruence.
Qed.

Lemma resolver_none_without_data_witness :
  let E := scenario (json_reply 200 (PDict {[ "code" := PInt (-1);
                                              "msg" := PStr "Url parsing is failed!" ]}))
             (media_reply 200 two_chunks) no_bot_fault no_os_fault in
  fst (resolve_tiktok_direct_url E "https://vm.tiktok.com/ZMxyz/" empty_world) = Ok PNone.
Proof.
  intros E.
  rewrite (resolver_none_without_data E "https://vm.tiktok.com/ZMxyz/" empty_world
             {| status := 200; json := Ok (PDict {[ "code" := PInt (-1);
                                                    "msg" := PStr "Url parsing is failed!" ]});
                content := Eof |}
             (PDict {[ "code" := PInt (-1); "msg" := PStr "Url parsing is failed!" ]}));
    [done | done | done | done |].
  right. eexists. split; [done |]. by vm_compute.
Defined.

(** The calls of the resolver: its request, then at most the decoding of
    the body and one record in the log. *)
Lemma resolver_calls_shape (E : environment) (url : string) :
  exists rest,
    resolver_calls E url = HttpGet (api_request E url) :: rest /\
    Forall decodes_or_logs rest /\ (length rest <= 2)%nat.
Proof.
  unfold resolver_calls.
  destruct (http_get E (api_request E url)) as [r | e'] eqn:Hget.
  - destruct (Z.eq_dec (status r) 200%Z) as [Hs | Hs].
    + destruct (json r) as [data | e'] eqn:Hj.
      * exists [ReadJson]. split; [| split; [by repeat constructor | simpl; lia]].
        by destruct (resolve_decoded E url r data Hget Hs Hj)
          as [[_ Hrun] | [(_ & _ & Hrun) | (_ & body & d & _ & _ & _ & Hrun)]];
          rewrite Hrun.
      * rewrite (resolve_parse_failure E url r e' _ Hget Hs Hj).
        eexists. split; [done |]. split; [by repeat constructor | simpl; lia].
    + rewrite (resolve_bad_status E url r _ Hget Hs).
      eexists. split; [done |]. split; [by repeat constructor | simpl; lia].
  - rewrite (resolve_transport_failure E url e' _ Hget).
    eexists. split; [done |]. split; [by repeat constructor | simpl; lia].
Qed.

(** X8.  Every call of the resolver makes exactly one request, first of
    all: a GET of the configured endpoint with the parameters [url] (the
    link, as given) and [hd=1] and a timeout of 30.  What follows is at most
    the decoding of the body and one record in the log; no file, no handle
    and no operation of the platform is involved, and the result does not
    depend on the world. *)
Theorem resolver_makes_one_request (E : environment) (url : string) (w : world) :
  exists rest,
    resolve_tiktok_direct_url E url w =
    (resolver_result E url, add_calls w (HttpGet (api_request E url) :: rest)) /\
    Forall decodes_or_logs rest /\ (length rest <= 2)%nat /\
    req_params (api_request E url) = [("url", url); ("hd", "1")] /\
    req_url (api_request E url) = PStr (TIKTOK_API_BASE E) /\
    req_timeout (api_request E url) = 30%Z.
Proof.
  destruct (resolver_calls_shape E url) as (rest & Hcalls & Hrest & Hlen). exists rest.
  rewrite resolve_run, Hcalls. done.
Qed.

(** ** Transfer manager *)

Lemma copied_prefix (E : environment) (path : string) (offset : nat) (body : stream) :
  copied E path offset body `prefix_of` stream_bytes body.
Proof.
  revert offset. induction body as [|data rest IH|e]; intros offset; cbn [copied stream_bytes].
  - done.
  - destruct (os_fault E _); [apply prefix_nil |]. by apply prefix_app.
  - done.
Qed.

Lemma transferred_prefix (E : environment) (url : pyval) :
  transferred E url `prefix_of`
    match http_get E (media_request url) with
    | Ok r => stream_bytes (content r)
    | Raised _ => []
    end.
Proof.
  unfold transferred. destruct (http_get E (media_request url)) as [r | e]; [| done].
  destruct (400 <=? status r)%Z; [apply prefix_nil | apply copied_prefix].
Qed.

(** X9.  A download touches one file only: every other path keeps its
    contents and its handle, the handle of the temporary file is closed
    when the download ends, and at most one request is made, a GET of the
    media URL without parameters and with a timeout of 120. *)
Theorem download_touches_one_file (E : environment) (url : pyval) (w : world) (p : string) :
  p <> tmp_path E ->
  let out := download_to_tempfile E url w in
  fs (snd out) !! p = fs w !! p /\
  (p ∈ handles (snd out) <-> p ∈ handles w) /\
  handles (snd out) ⊆ handles w /\
  calls (snd out) = calls w ++
    match os_fault E (sys_create (tmp_path E)) with
    | Some _ => []
    | None => [HttpGet {| req_url := url; req_params := []; req_timeout := 120 |}]
    end.
Proof.
  intros Hp out. subst out. rewrite download_run.
  destruct (os_fault E (sys_create (tmp_path E))).
  { cbn [snd]. by rewrite app_nil_r. }
  assert (Hh : forall hs : gset string, (p ∈ hs ∖ {[tmp_path E]} <-> p ∈ hs)).
  { intros hs. rewrite elem_of_difference, elem_of_singleton. tauto. }
  assert (Hsub : forall hs : gset string, hs ∖ {[tmp_path E]} ⊆ hs).
  { intros hs x. rewrite elem_of_difference. tauto. }
  destruct (transfer_failure E url); cbn [snd fs handles calls].
  - destruct (os_fault E (sys_unlink (tmp_path E)));
      [rewrite lookup_insert_ne by done | rewrite lookup_delete_ne by done]; done.
  - by rewrite lookup_insert_ne by done.
Qed.

Lemma download_touches_one_file_witness :
  let E := scenario (json_reply 200 hd_body) (media_reply 200 two_chunks)
             no_bot_fault no_os_fault in
  let w := {| fs := {[ "/etc/passwd" := [Byte.x72] ]}; handles := ∅; calls := [] |} in
  fs (snd (download_to_tempfile E (PStr "https://cdn/x.mp4") w)) !! "/etc/passwd"
  = Some [Byte.x72].
Proof.
  intros E w.
  by destruct (download_touches_one_file E (PStr "https://cdn/x.mp4") w "/etc/passwd")
    as [-> _].
Defined.

(** X10.  The status check of the download is [raise_for_status]: a status
    of 400 or more fails the download with the error of that status before
    a byte is written, and every status below 400, not 200 alone, lets the
    body be copied. *)
Theorem download_checks_status
    (E : environment) (url : pyval) (w : world) (r : response) :
  os_fault E (sys_create (tmp_path E)) = None ->
  http_get E (media_request url) = Ok r ->
  let out := download_to_tempfile E url w in
  ((400 <= status r)%Z ->
     fst out = Raised (ClientResponseError (status r)) /\
     fs (snd out) !! tmp_path E =
       match os_fault E (sys_unlink (tmp_path E)) with
       | None => None
       | Some _ => Some []
       end) /\
  ((status r < 400)%Z ->
     copy_failure E (tmp_path E) 0 (content r) = None ->
     fst out = Ok (tmp_path E) /\
     fs (snd out) !! tmp_path E = Some (stream_bytes (content r))).
Proof.
  intros Hcreate Hget out. subst out. rewrite download_run, Hcreate.
  unfold transfer_failure, transferred. rewrite Hcreate, Hget. split.
  - intros Hs%Z.leb_le. rewrite Hs. cbn [fst snd fs]. split; [done |].
    destruct (os_fault E (sys_unlink (tmp_path E)));
      [by rewrite lookup_insert_eq | by rewrite lookup_delete_eq].
  - intros Hs%Z.leb_gt Hcopy. rewrite Hs, Hcopy. cbn [fst snd fs]. split; [done |].
    by rewrite lookup_insert_eq, copied_complete.
Qed.

Lemma download_checks_status_witness :
  let E := scenario (json_reply 200 hd_body) (media_reply 403 two_chunks)
             no_bot_fault no_os_fault in
  let out := download_to_tempfile E (PStr "https://cdn/x.mp4") empty_world in
  fst out = Raised (ClientResponseError 403) /\
  fs (snd out) !! "/tmp/tmpk3q9x_2a.mp4" = None.
Proof.
  intros E out.
  destruct (download_checks_status E (PStr "https://cdn/x.mp4") empty_world
              {| status := 403; json := Raised (OtherError "ContentTypeError");
                 content := two_chunks |} eq_refl eq_refl) as [H _].
  apply H. by vm_compute.
Defined.

(** X11.  Whatever a download leaves in the temporary file is a prefix of
    the bytes of the body, in their order: the chunks are written one after
    the other from the start, none twice and none out of turn. *)
Theorem partial_file_is_a_prefix
    (E : environment) (url : pyval) (w : world) (data : list Byte.byte) :
  fs w !! tmp_path E = None ->
  fs (snd (download_to_tempfile E url w)) !! tmp_path E = Some data ->
  data `prefix_of`
    match http_get E (media_request url) with
    | Ok r => stream_bytes (content r)
    | Raised _ => []
    end.
Proof.
  intros Hfree. rewrite download_run.
  destruct (os_fault E (sys_create (tmp_path E))).
  { cbn [snd]. by rewrite Hfree. }
  destruct (transfer_failure E url); cbn [snd fs].
  - destruct (os_fault E (sys_unlink (tmp_path E))).
    + rewrite lookup_insert_eq. intros [= <-]. apply transferred_prefix.
    + by rewrite lookup_delete_eq.
  - rewrite lookup_insert_eq. intros [= <-]. apply transferred_prefix.
Qed.

Lemma partial_file_is_a_prefix_witness :
  [Byte.x00; Byte.x00; Byte.x00; Byte.x18] `prefix_of` [Byte.x00; Byte.x00; Byte.x00; Byte.x18].
Proof.
  apply (partial_file_is_a_prefix
           (scenario (json_reply 200 hd_body) (media_reply 200 cut_after_one_chunk)
              no_bot_fault unlink_refused)
           (PStr "https://cdn/x.mp4") empty_world
           [Byte.x00; Byte.x00; Byte.x00; Byte.x18]); by vm_compute.
Defined.

(** ** Delivery orchestrator *)

Section DeliveryFacts.

Variable urlparse_netloc : string -> option string.
Variable E : environment.

Lemma delete_original_run (msg : Message) (w : world) :
  delete_original E msg w = (Ok tt, add_calls w (moderation_calls E msg)).
Proof.
  unfold delete_original, moderation_calls, in_group.
  destruct (chat msg) as [c |]; [| by rewrite add_calls_nil].
  case_bool_decide; [| by rewrite add_calls_nil].
  unfold try_except. rewrite bot_run.
  destruct (bot_fault E _); [finish | done].
Qed.

Lemma signal_upload_run (chat : Z) (w : world) :
  signal_upload E chat w = (Ok tt, add_calls w [Bot (send_chat_action chat "upload_video")]).
Proof.
  unfold signal_upload, try_except. rewrite bot_run. by destruct (bot_fault E _).
Qed.

(** The calls of a handling up to the answer of the resolver. *)
Lemma handle_message_prelude (update : Update) (msg : Message) (url : string) (w : world) :
  effective_message update = Some msg ->
  _extract_tiktok_url_from_text urlparse_netloc (text msg) = Some url ->
  handle_message urlparse_netloc E update w =
  let w' := add_calls w (moderation_calls E msg
                         ++ Bot (send_chat_action (chat_id msg) "upload_video")
                         :: resolver_calls E url) in
  match resolver_result E url with
  | Ok v => deliver E (chat_id msg) (caption_of msg) v w'
  | Raised e => (Raised e, w')
  end.
Proof.
  intros Hmsg Hurl. destruct (extract_some_truthy _ _ _ Hurl) as [Htext Hu].
  unfold handle_message. rewrite Hmsg, Htext, Hurl. cbn [negb opt_truthy].
  rewrite Hu. cbn [negb default from_option id].
  rewrite bind_run, delete_original_run, bind_run, signal_upload_run, bind_run, resolve_run.
  cbv zeta. rewrite !add_calls_app. cbn [app].
  by destruct (resolver_result E url).
Qed.

(** The fallback, on every path. *)
Lemma upload_fallback_run (chat : Z) (v : pyval) (caption : string) (w : world) :
  upload_fallback E chat v caption w =
  match os_fault E (sys_create (tmp_path E)) with
  | Some e => (Raised e, w)
  | None =>
      let upload := Bot (send_video chat (ByUpload (tmp_path E) (transferred E v)) caption) in
      let ended made :=
        {| fs := after_removal E v (fs w);
           handles := handles w ∖ {[tmp_path E]};
           calls := calls w ++ HttpGet (media_request v) :: made |} in
      match transfer_failure E v with
      | Some e => (Raised e, ended [])
      | None =>
          match os_fault E (sys_open (tmp_path E)) with
          | Some e => (Raised e, ended [])
          | None =>
              (match bot_fault E (send_video chat (ByUpload (tmp_path E) (transferred E v))
                                    caption) with
               | Some e => Raised e
               | None => Ok tt
               end, ended [upload])
          end
      end
  end.
Proof.
  destruct (os_fault E (sys_create (tmp_path E))) as [e |] eqn:Hcreate.
  { unfold upload_fallback, try_assign_finally. rewrite download_run, Hcreate.
    unfold try_finally, raise. by cbn [opt_truthy]. }
  cbv zeta. unfold after_removal.
  destruct (transfer_failure E v) as [e |] eqn:Hfail.
  { unfold upload_fallback, try_assign_finally. rewrite download_run, Hcreate, Hfail.
    unfold try_finally, raise. by cbn [opt_truthy]. }
  destruct (os_fault E (sys_open (tmp_path E))) as [e |] eqn:Hopen.
  - unfold upload_fallback, try_assign_finally. rewrite download_run, Hcreate, Hfail.
    unfold try_finally, with_open_rb. rewrite Hopen.
    unfold opt_truthy. rewrite tmp_path_truthy. cbn [default from_option id].
    unfold try_except, os_remove. cbn [fs handles calls snd fst].
    destruct (os_fault E (sys_unlink (tmp_path E))); [done |].
    by rewrite lookup_insert_eq, delete_insert_eq.
  - by rewrite upload_fallback_downloaded.
Qed.

(** What follows the resolution, on every path. *)
Lemma deliver_run (chat : Z) (caption : string) (v : pyval) (w : world) :
  deliver E chat caption v w =
  if truthy v then
    match bot_fault E (send_video chat (ByReference v) caption) with
    | None => (Ok tt, add_calls w [Bot (send_video chat (ByReference v) caption)])
    | Some _ =>
        upload_fallback E chat v caption
          (add_calls w [Bot (send_video chat (ByReference v) caption);
                        LogRecord "WARNING" "Direct send failed, will try uploading: %s"])
    end
  else
    (match bot_fault E (send_message chat unresolved_notice) with
     | Some e => Raised e
     | None => Ok tt
     end, add_calls w [Bot (send_message chat unresolved_notice)]).
Proof.
  unfold deliver. destruct (truthy v); cbn [negb]; [| apply bot_run].
  rewrite bind_run, send_by_reference_run. by destruct (bot_fault E _).
Qed.

(** The calls of [deliver]: either the notice alone, or the video by
    reference, then, when that was refused, a warning, the request of the
    download and at most the upload. *)
Lemma deliver_calls (chat : Z) (caption : string) (v : pyval) (w : world) :
  exists evs,
    calls (snd (deliver E chat caption v w)) = calls w ++ evs /\
    (evs = [Bot (send_message chat unresolved_notice)] /\ truthy v = false \/
     truthy v = true /\
     exists rest,
       evs = Bot (send_video chat (ByReference v) caption) :: rest /\
       (rest = [] /\ bot_fault E (send_video chat (ByReference v) caption) = None \/
        bot_fault E (send_video chat (ByReference v) caption) <> None /\
        exists tail,
          rest = LogRecord "WARNING" "Direct send failed, will try uploading: %s" :: tail /\
          (tail = [] \/ tail = [HttpGet (media_request v)] \/
           tail = [HttpGet (media_request v);
                   Bot (send_video chat (ByUpload (tmp_path E) (transferred E v)) caption)]))).
Proof.
  rewrite deliver_run. destruct (truthy v).
  - destruct (bot_fault E (send_video chat (ByReference v) caption)) as [e |] eqn:Href.
    + rewrite upload_fallback_run.
      assert (Hshape : forall tail,
                (tail = [] \/ tail = [HttpGet (media_request v)] \/
                 tail = [HttpGet (media_request v);
                         Bot (send_video chat (ByUpload (tmp_path E) (transferred E v))
                                caption)]) ->
                exists evs,
                  calls w ++ [Bot (send_video chat (ByReference v) caption);
                              LogRecord "WARNING" "Direct send failed, will try uploading: %s"]
                          ++ tail = calls w ++ evs /\
                  (evs = [Bot (send_message chat unresolved_notice)] /\ true = false \/
                   true = true /\
                   exists rest,
                     evs = Bot (send_video chat (ByReference v) caption) :: rest /\
                     (rest = [] /\ Some e = None \/
                      Some e <> None /\
                      exists tail,
                        rest = LogRecord "WARNING"
                                 "Direct send failed, will try uploading: %s" :: tail /\
                        (tail = [] \/ tail = [HttpGet (media_request v)] \/
                         tail = [HttpGet (media_request v);
                                 Bot (send_video chat
                                        (ByUpload (tmp_path E) (transferred E v)) caption)])))).
      { intros tail Htail. eexists. split; [done |]. right. split; [done |].
        eexists. split; [done |]. right. split; [done |]. by exists tail. }
      destruct (os_fault E (sys_create (tmp_path E))).
      { cbn [snd add_calls calls]. destruct (Hshape []) as [evs Hevs]; [by left |].
        rewrite app_nil_r in Hevs. by exists evs. }
      cbv zeta.
      destruct (transfer_failure E v); [| destruct (os_fault E (sys_open (tmp_path E)))];
        cbn [snd add_calls calls]; rewrite <- app_assoc; apply Hshape; auto.
    + eexists. split; [done |]. right. split; [done |]. eexists. split; [done |]. by left.
  - eexists. split; [done |]. by left.
Qed.

End DeliveryFacts.

Lemma calls_one (a pre b : list event) : (a ++ pre) ++ b = a ++ (pre ++ b).
Proof. by rewrite <- app_assoc. Qed.

Lemma calls_two (a pre b c : list event) : ((a ++ pre) ++ b) ++ c = a ++ (pre ++ b ++ c).
Proof. by rewrite <- !app_assoc. Qed.

Lemma resolver_calls_not_bot (E : environment) (url : string) :
  Forall not_bot (resolver_calls E url).
Proof.
  destruct (resolver_calls_shape E url) as (rest & -> & Hrest & _).
  constructor; [done |]. eapply Forall_impl; [done |]. by intros [].
Qed.

Lemma moderation_calls_send_nothing (E : environment) (msg : Message) :
  Forall sends_nothing (moderation_calls E msg).
Proof.
  unfold moderation_calls. destruct (in_group msg); [| done].
  destruct (bot_fault E _); by repeat constructor.
Qed.

(** Up to the answer of the resolver a handling sends nothing. *)
Lemma prelude_sends_nothing (E : environment) (msg : Message) (url : string) :
  Forall sends_nothing
    (moderation_calls E msg
     ++ Bot (send_chat_action (chat_id msg) "upload_video") :: resolver_calls E url).
Proof.
  apply Forall_app_2; [apply moderation_calls_send_nothing |].
  constructor; [done |].
  eapply Forall_impl; [apply resolver_calls_not_bot | apply not_bot_sends_nothing].
Qed.

Lemma transferred_complete (E : environment) (v : pyval) :
  transfer_failure E v = None ->
  exists r, http_get E (media_request v) = Ok r /\ (status r < 400)%Z /\
            transferred E v = stream_bytes (content r).
Proof.
  unfold transfer_failure, transferred.
  destruct (os_fault E (sys_create (tmp_path E))); [done |].
  destruct (http_get E (media_request v)) as [r | e]; [| done].
  destruct (Z.leb_spec 400 (status r)); [done |].
  intros Hcopy. exists r. by rewrite copied_complete.
Qed.

Lemma after_removal_other (E : environment) (v : pyval)
    (files : gmap string (list Byte.byte)) (p : string) :
  p <> tmp_path E -> after_removal E v files !! p = files !! p.
Proof.
  intros Hp. unfold after_removal. destruct (os_fault E (sys_unlink (tmp_path E))).
  - by rewrite lookup_insert_ne.
  - by rewrite lookup_delete_ne.
Qed.


(** The files and the handles after [deliver]. *)
Lemma deliver_files (E : environment) (chat : Z) (caption : string) (v : pyval) (w : world) :
  (fs (snd (deliver E chat caption v w)) = fs w \/
   fs (snd (deliver E chat caption v w)) = after_removal E v (fs w)) /\
  handles (snd (deliver E chat caption v w)) ⊆ handles w.
Proof.
  assert (Hsub : handles w ∖ {[tmp_path E]} ⊆ handles w).
  { intros x. rewrite elem_of_difference. tauto. }
  rewrite deliver_run. destruct (truthy v); [| by split; [left |]].
  destruct (bot_fault E (send_video chat (ByReference v) caption)); [| by split; [left |]].
  rewrite upload_fallback_run.
  destruct (os_fault E (sys_create (tmp_path E))); [by split; [left |] |].
  cbv zeta.
  destruct (transfer_failure E v); [| destruct (os_fault E (sys_open (tmp_path E)))];
    by split; [right |].
Qed.

(** X12.  The original message is deleted in groups and supergroups only,
    before anything else is done, and once: in a group the first call of a
    handling that found a link is the deletion of that very message, and no
    other call of the handling deletes a message. *)
Theorem original_deleted_in_groups_only
    (urlparse_netloc : string -> option string) (E : environment)
    (update : Update) (msg : Message) (url : string) (w : world) :
  effective_message update = Some msg ->
  _extract_tiktok_url_from_text urlparse_netloc (text msg) = Some url ->
  exists rest,
    calls (snd (handle_message urlparse_netloc E update w)) =
      calls w
      ++ (if in_group msg
          then [Bot (delete_message (chat_id msg) (message_id msg))] else [])
      ++ rest /\
    Forall not_delete rest.
Proof.
  intros Hmsg Hurl. rewrite (handle_message_prelude _ E update msg url w Hmsg Hurl).
  cbv zeta.
  assert (Hpre : exists log,
            moderation_calls E msg =
              (if in_group msg
               then [Bot (delete_message (chat_id msg) (message_id msg))] else []) ++ log /\
            Forall not_delete log).
  { unfold moderation_calls. destruct (in_group msg); [| by exists []].
    destruct (bot_fault E _); eexists; (split; [reflexivity |]); by repeat constructor. }
  destruct Hpre as (log & -> & Hlog).
  assert (Hres : Forall not_delete (resolver_calls E url)).
  { eapply Forall_impl; [apply resolver_calls_not_bot |]. by intros [[] | | |]. }
  destruct (resolver_result E url) as [v | e].
  - destruct (deliver_calls E (chat_id msg) (caption_of msg) v
                (add_calls w
                   (((if in_group msg
                      then [Bot (delete_message (chat_id msg) (message_id msg))]
                      else []) ++ log)
                    ++ Bot (send_chat_action (chat_id msg) "upload_video")
                    :: resolver_calls E url))) as (evs & -> & Hevs).
    exists (log ++ Bot (send_chat_action (chat_id msg) "upload_video")
            :: resolver_calls E url ++ evs).
    cbn [add_calls calls]. split.
    { rewrite <- !app_assoc. by cbn [app]. }
    apply Forall_app_2; [done |]. constructor; [done |]. apply Forall_app_2; [done |].
    destruct Hevs as [[-> _] | (_ & rest & -> & [[-> _] | (_ & tail & -> & Htail)])];
      [by repeat constructor | by repeat constructor |].
    destruct Htail as [-> | [-> | ->]]; by repeat constructor.
  - exists (log ++ Bot (send_chat_action (chat_id msg) "upload_video")
            :: resolver_calls E url).
    cbn [snd add_calls calls]. split; [by rewrite <- !app_assoc |].
    apply Forall_app_2; [done |]. by constructor.
Qed.

Lemma original_deleted_in_groups_only_witness :
  let E := scenario (json_reply 200 hd_body) (media_reply 200 two_chunks)
             no_bot_fault no_os_fault in
  exists rest,
    calls (snd (handle_message netloc_of E (message_of shared_link "supergroup") empty_world))
    = Bot (delete_message 42 7) :: rest /\
    Forall not_delete rest.
Proof.
  intros E.
  apply (original_deleted_in_groups_only netloc_of E (message_of shared_link "supergroup")
           _ "https://vm.tiktok.com/ZMxyz/" empty_world eq_refl eq_refl).
Defined.

(** X13.  The deletion of the original message and the upload signal are
    courtesies: when the platform refuses both, the deletion is logged as a
    warning, the refusal of the signal leaves no trace, and the handling
    goes on to ask the resolver for the link it found. *)
Theorem courtesy_failures_are_survived
    (urlparse_netloc : string -> option string) (E : environment)
    (update : Update) (msg : Message) (url : string) (e1 e2 : exn) (w : world) :
  effective_message update = Some msg ->
  _extract_tiktok_url_from_text urlparse_netloc (text msg) = Some url ->
  in_group msg = true ->
  bot_fault E (delete_message (chat_id msg) (message_id msg)) = Some e1 ->
  bot_fault E (send_chat_action (chat_id msg) "upload_video") = Some e2 ->
  exists rest,
    calls (snd (handle_message urlparse_netloc E update w)) =
      calls w ++ [Bot (delete_message (chat_id msg) (message_id msg));
                  LogRecord "WARNING" "Couldn't delete message: %s";
                  Bot (send_chat_action (chat_id msg) "upload_video");
                  HttpGet (api_request E url)] ++ rest.
Proof.
  intros Hmsg Hurl Hgroup Hdel Hact.
  rewrite (handle_message_prelude _ E update msg url w Hmsg Hurl). cbv zeta.
  unfold moderation_calls. rewrite Hgroup, Hdel.
  destruct (resolver_calls_shape E url) as (tail & -> & _).
  destruct (resolver_result E url) as [v | e].
  - match goal with
    | |- context [deliver E ?c ?cap v ?w'] =>
        destruct (deliver_calls E c cap v w') as (evs & -> & _)
    end.
    exists (tail ++ evs). cbn [add_calls calls app]. by rewrite <- !app_assoc.
  - exists tail. cbn [snd add_calls calls app]. done.
Qed.

Lemma courtesy_failures_are_survived_witness :
  let E := scenario (json_reply 200 hd_body) (media_reply 200 two_chunks)
             courtesies_refused no_os_fault in
  exists rest,
    calls (snd (handle_message netloc_of E (message_of shared_link "group") empty_world)) =
    [Bot (delete_message 42 7);
     LogRecord "WARNING" "Couldn't delete message: %s";
     Bot (send_chat_action 42 "upload_video");
     HttpGet (api_request E "https://vm.tiktok.com/ZMxyz/")] ++ rest.
Proof.
  intros E.
  apply (courtesy_failures_are_survived netloc_of E (message_of shared_link "group")
           _ "https://vm.tiktok.com/ZMxyz/" (OtherError "BadRequest") (OtherError "TimedOut")
           empty_world eq_refl eq_refl eq_refl eq_refl eq_refl).
Defined.

(** X14.  When the service answers 200 with a body on which [get] is
    missing, the [AttributeError] of the resolver leaves [handle_message]:
    the handling ends with that exception, having sent neither the notice
    nor a video, and having touched no file. *)
Theorem resolver_exception_escapes
    (urlparse_netloc : string -> option string) (E : environment)
    (update : Update) (msg : Message) (url : string)
    (r : response) (data : pyval) (w : world) :
  effective_message update = Some msg ->
  _extract_tiktok_url_from_text urlparse_netloc (text msg) = Some url ->
  http_get E (api_request E url) = Ok r ->
  status r = 200%Z ->
  json r = Ok data ->
  misshapen data ->
  let out := handle_message urlparse_netloc E update w in
  fst out = Raised AttributeError /\
  fs (snd out) = fs w /\ handles (snd out) = handles w /\
  exists evs,
    calls (snd out) = calls w ++ evs /\
    sent_messages evs = [] /\ sent_videos evs = [].
Proof.
  intros Hmsg Hurl Hget Hs Hj Hbad out. subst out.
  rewrite (handle_message_prelude _ E update msg url w Hmsg Hurl). cbv zeta.
  assert (Hres : resolver_result E url = Raised AttributeError).
  { unfold resolver_result.
    destruct (resolve_decoded E url r data Hget Hs Hj)
      as [[_ Hrun] | [(Hgood & _) | (Hgood & _)]]; [by rewrite Hrun | done | done]. }
  rewrite Hres. cbn [fst snd add_calls fs handles calls]. repeat split.
  eexists. split; [done |].
  by apply sends_nothing_messages, prelude_sends_nothing.
Qed.

Lemma resolver_exception_escapes_witness :
  let E := scenario (json_reply 200 text_data_body) (media_reply 200 two_chunks)
             no_bot_fault no_os_fault in
  let out := handle_message netloc_of E (message_of shared_link "private") empty_world in
  fst out = Raised AttributeError /\ sent_messages (calls (snd out)) = [].
Proof.
  intros E out.
  destruct (resolver_exception_escapes netloc_of E (message_of shared_link "private")
              _ "https://vm.tiktok.com/ZMxyz/"
              {| status := 200; json := Ok text_data_body; content := Eof |}
              text_data_body empty_world eq_refl eq_refl eq_refl eq_refl eq_refl)
    as (Hout & _ & _ & evs & Hcalls & Hnone & _).
  { split; [done | right].
    exists {[ "code" := PInt (-1); "data" := PStr "not found" ]}, (PStr "not found").
    by vm_compute. }
  split; [done |]. subst out. by rewrite Hcalls.
Defined.

(** X15.  When the platform accepts the video by its URL the handling ends
    there: it returns, the video by reference is the last call and the only
    thing sent, nothing is downloaded and no file or handle is touched. *)
Theorem reference_delivery_ends_handling
    (urlparse_netloc : string -> option string) (E : environment)
    (update : Update) (msg : Message) (url : string) (v : pyval) (w : world) :
  effective_message update = Some msg ->
  _extract_tiktok_url_from_text urlparse_netloc (text msg) = Some url ->
  resolver_result E url = Ok v ->
  truthy v = true ->
  bot_fault E (send_video (chat_id msg) (ByReference v) (caption_of msg)) = None ->
  let out := handle_message urlparse_netloc E update w in
  fst out = Ok tt /\
  fs (snd out) = fs w /\ handles (snd out) = handles w /\
  exists pre,
    calls (snd out) =
      calls w ++ pre ++ [Bot (send_video (chat_id msg) (ByReference v) (caption_of msg))] /\
    Forall sends_nothing pre /\
    forall u, HttpGet (media_request u) ∉ pre.
Proof.
  intros Hmsg Hurl Hres Hv Href out. subst out.
  rewrite (handle_message_prelude _ E update msg url w Hmsg Hurl). cbv zeta.
  rewrite Hres, deliver_run, Hv, Href. cbn [fst snd add_calls fs handles calls].
  repeat split. eexists. split; [by rewrite <- app_assoc |].
  split; [apply prelude_sends_nothing |].
  intros u [Hin | Hin]%elem_of_app.
  - unfold moderation_calls in Hin. destruct (in_group msg); [| by apply elem_of_nil in Hin].
    apply elem_of_cons in Hin as [Hin | Hin]; [done |].
    destruct (bot_fault E (delete_message (chat_id msg) (message_id msg)));
      [| by apply elem_of_nil in Hin].
    apply elem_of_cons in Hin as [Hin | Hin]; [done | by apply elem_of_nil in Hin].
  - apply elem_of_cons in Hin as [Hin | Hin]; [done |].
    destruct (resolver_calls_shape E url) as (rest & Hcalls & Hrest & _).
    rewrite Hcalls in Hin. apply elem_of_cons in Hin as [Hin | Hin]; [done |].
    rewrite Forall_forall in Hrest. by apply Hrest in Hin.
Qed.

Lemma reference_delivery_ends_handling_witness :
  let E := scenario (json_reply 200 hd_body) (media_reply 200 two_chunks)
             no_bot_fault no_os_fault in
  let out := handle_message netloc_of E (message_of shared_link "group") empty_world in
  fst out = Ok tt /\ fs (snd out) = ∅.
Proof.
  intros E out.
  destruct (reference_delivery_ends_handling netloc_of E (message_of shared_link "group")
              _ "https://vm.tiktok.com/ZMxyz/" (PStr "https://cdn/x.mp4") empty_world
              eq_refl eq_refl eq_refl eq_refl eq_refl)
    as (Hout & Hfs & _).
  by split.
Defined.

(** X16.  The fallback uploads what the media host sent: when the video by
    reference is refused and the download succeeds, exactly two videos go
    out, to the same chat and with the same caption, the first by reference
    and the second with all the bytes of the body, in order, under the name
    of the temporary file; the handling ends as the upload does. *)
Theorem fallback_uploads_the_body
    (urlparse_netloc : string -> option string) (E : environment)
    (update : Update) (msg : Message) (url : string) (v : pyval)
    (refused : exn) (w : world) :
  effective_message update = Some msg ->
  _extract_tiktok_url_from_text urlparse_netloc (text msg) = Some url ->
  resolver_result E url = Ok v ->
  truthy v = true ->
  bot_fault E (send_video (chat_id msg) (ByReference v) (caption_of msg)) = Some refused ->
  transfer_failure E v = None ->
  os_fault E (sys_open (tmp_path E)) = None ->
  let out := handle_message urlparse_netloc E update w in
  exists r evs,
    http_get E (media_request v) = Ok r /\ (status r < 400)%Z /\
    calls (snd out) = calls w ++ evs /\
    sent_messages evs = [] /\
    sent_videos evs =
      [(chat_id msg, ByReference v, caption_of msg);
       (chat_id msg, ByUpload (tmp_path E) (stream_bytes (content r)), caption_of msg)] /\
    fst out =
      match bot_fault E (send_video (chat_id msg)
                           (ByUpload (tmp_path E) (stream_bytes (content r)))
                           (caption_of msg)) with
      | Some e => Raised e
      | None => Ok tt
      end.
Proof.
  intros Hmsg Hurl Hres Hv Href Hok Hopen out. subst out.
  destruct (transferred_complete E v Hok) as (r & Hget & Hs & Hbytes).
  exists r.
  rewrite (handle_message_prelude _ E update msg url w Hmsg Hurl). cbv zeta.
  rewrite Hres, deliver_run, Hv, Href, upload_fallback_run, Hok, Hopen.
  assert (os_fault E (sys_create (tmp_path E)) = None) as ->.
  { unfold transfer_failure in Hok. by destruct (os_fault E (sys_create _)). }
  cbv zeta. rewrite Hbytes. cbn [fst snd add_calls fs handles calls].
  eexists. split; [done |]. split; [done |].
  split; [apply calls_two |].
  destruct (sends_nothing_messages _ (prelude_sends_nothing E msg url)) as [Hm Hvid].
  set (pre := moderation_calls E msg ++ _ :: resolver_calls E url) in *. clearbody pre.
  rewrite !sent_messages_app, !sent_videos_app, Hm, Hvid. done.
Qed.

Lemma fallback_uploads_the_body_witness :
  let E := scenario (json_reply 200 hd_body) (media_reply 200 two_chunks)
             reference_refused no_os_fault in
  let out := handle_message netloc_of E (message_of shared_link "private") empty_world in
  sent_videos (calls (snd out)) =
  [(42%Z, ByReference (PStr "https://cdn/x.mp4"), "Send By : @alice");
   (42%Z, ByUpload "/tmp/tmpk3q9x_2a.mp4"
            [Byte.x00; Byte.x00; Byte.x00; Byte.x18; Byte.x66; Byte.x74],
    "Send By : @alice")].
Proof.
  intros E out.
  destruct (fallback_uploads_the_body netloc_of E (message_of shared_link "private")
              _ "https://vm.tiktok.com/ZMxyz/" (PStr "https://cdn/x.mp4")
              (OtherError "BadRequest") empty_world
              eq_refl eq_refl eq_refl eq_refl eq_refl eq_refl eq_refl)
    as (r & evs & Hget & _ & Hcalls & _ & Hvideos & _).
  injection Hget as <-. subst out. by rewrite Hcalls.
Defined.



(** X18.  What one handling sends is one of four things: nothing; the
    notice of an unresolved link alone; one video by reference; or a video
    by reference followed by an upload to the same chat with the same
    caption.  A notice and a video never go out together, and nothing is
    uploaded that was not first offered by reference. *)
Theorem handling_sends_one_of_four
    (urlparse_netloc : string -> option string) (E : environment)
    (update : Update) (w : world) :
  exists evs,
    calls (snd (handle_message urlparse_netloc E update w)) = calls w ++ evs /\
    (sent_messages evs = [] /\ sent_videos evs = [] \/
     (exists c, sent_messages evs = [(c, unresolved_notice)]) /\ sent_videos evs = [] \/
     sent_messages evs = [] /\
       (exists c u cap, sent_videos evs = [(c, ByReference u, cap)]) \/
     sent_messages evs = [] /\
       (exists c u cap path data,
          sent_videos evs = [(c, ByReference u, cap); (c, ByUpload path data, cap)])).
Proof.
  destruct (effective_message update) as [msg |] eqn:Hmsg.
  2: { exists []. rewrite handle_message_ignored; [| by intros msg; rewrite Hmsg].
       rewrite app_nil_r. by split; [| left]. }
  destruct (_extract_tiktok_url_from_text urlparse_netloc (text msg)) as [url |] eqn:Hurl.
  2: { exists []. rewrite handle_message_ignored;
         [| intros msg' Hmsg'; rewrite Hmsg in Hmsg'; by injection Hmsg' as <-].
       rewrite app_nil_r. by split; [| left]. }
  rewrite (handle_message_prelude _ E update msg url w Hmsg Hurl). cbv zeta.
  destruct (sends_nothing_messages _ (prelude_sends_nothing E msg url)) as [Hm Hvid].
  set (pre := moderation_calls E msg ++ _ :: resolver_calls E url) in *. clearbody pre.
  destruct (resolver_result E url) as [v | e].
  - match goal with
    | |- context [deliver E ?c ?cap v ?w'] =>
        destruct (deliver_calls E c cap v w') as (evs & -> & Hevs)
    end.
    eexists. cbn [add_calls calls]. split; [apply calls_one |].
    rewrite !sent_messages_app, !sent_videos_app, Hm, Hvid. cbn [app].
    destruct Hevs as [[-> _] | (_ & rest & -> & [[-> _] | (_ & tail & -> & Htail)])].
    + right. left. split; [by eexists | done].
    + right. right. left. split; [done | by do 3 eexists].
    + destruct Htail as [-> | [-> | ->]].
      * right. right. left. split; [done | by do 3 eexists].
      * right. right. left. split; [done | by do 3 eexists].
      * right. right. right. split; [done | by do 5 eexists].
  - eexists. cbn [snd add_calls calls]. split; [done |]. by left.
Qed.

(** X19.  A handling touches no file but the temporary one and leaves no
    handle open: every other path keeps its contents, and the handles open
    afterwards were open before. *)
Theorem handling_touches_one_file
    (urlparse_netloc : string -> option string) (E : environment)
    (update : Update) (w : world) (p : string) :
  p <> tmp_path E ->
  let out := handle_message urlparse_netloc E update w in
  fs (snd out) !! p = fs w !! p /\ handles (snd out) ⊆ handles w.
Proof.
  intros Hp out. subst out.
  destruct (effective_message update) as [msg |] eqn:Hmsg.
  2: { by rewrite handle_message_ignored; [| by intros msg; rewrite Hmsg]. }
  destruct (_extract_tiktok_url_from_text urlparse_netloc (text msg)) as [url |] eqn:Hurl.
  2: { by rewrite handle_message_ignored;
         [| intros msg' Hmsg'; rewrite Hmsg in Hmsg'; by injection Hmsg' as <-]. }
  rewrite (handle_message_prelude _ E update msg url w Hmsg Hurl). cbv zeta.
  destruct (resolver_result E url) as [v | e]; [| done].
  match goal with
  | |- context [deliver E ?c ?cap v ?w'] =>
      destruct (deliver_files E c cap v w') as [[-> | ->] Hh]
  end; cbn [add_calls fs handles] in *; split; try done.
  by apply after_removal_other.
Qed.

Lemma handling_touches_one_file_witness :
  let E := scenario (json_reply 200 hd_body) (media_reply 200 two_chunks)
             reference_refused unlink_refused in
  let w := {| fs := {[ "/srv/bot/.env" := [Byte.x42] ]}; handles := ∅; calls := [] |} in
  let out := handle_message netloc_of E (message_of shared_link "group") w in
  fs (snd out) !! "/srv/bot/.env" = Some [Byte.x42] /\ handles (snd out) ⊆ ∅.
Proof.
  intros E w out.
  by apply (handling_touches_one_file netloc_of E (message_of shared_link "group") w
              "/srv/bot/.env").
Defined.


